(** * Crowd issue reporting: the record store of [app.py]

    A shallow embedding of the storage layer of the Streamlit application
    (load/save of [issues.json], creation, upvote, update log, coordinate
    patch, owner-gated deletion) and of its filter and display order,
    followed by the properties of the written specification that were
    checked against it.

    Python values that come out of [json.load] are modelled by [value];
    a record is a [VDict] over [gmap string value].  Operations that can
    raise in Python return a [result] carrying the exception class. *)

From Stdlib Require Import ZArith Lia List String Ascii Sorted Permutation.
From Stdlib Require Import Floats.SpecFloat.
From stdpp Require Import base option list gmap strings pretty.

#[local] Set Warnings "-register-all".
#[local] Open Scope Z_scope.

(** ** Values *)

(** What [json.load] builds: [None], [bool], [int], [float], [str], [list]
    and [dict] with [str] keys.  Floats are IEEE-754 values in the
    standard library's specification form. *)
Inductive value : Type :=
| VNone
| VBool (b : bool)
| VInt (z : Z)
| VFloat (f : spec_float)
| VStr (s : string)
| VList (l : list value)
| VDict (d : gmap string value).

(** The exception classes the modelled code can meet. *)
Inductive exn : Type :=
| KeyError
| TypeError
| AttributeError
| ValueError
| OverflowError
| JSONDecodeError
| UnicodeDecodeError
| OSError.

Inductive result (A : Type) : Type :=
| Ok (a : A)
| Raise (e : exn).
Arguments Ok {A} a.
Arguments Raise {A} e.

#[export] Instance result_ret : MRet result := fun A a => Ok a.
#[export] Instance result_bind : MBind result := fun A B f m =>
  match m with
  | Ok a => f a
  | Raise e => Raise e
  end.

(** *** Numbers *)

(** A Python number seen exactly: [m * 2^e], an infinity, or NaN. *)
Inductive num : Type :=
| Dyadic (m e : Z)
| Inf (negative : bool)
| NaN.

Definition num_of_float (f : spec_float) : num :=
  match f with
  | S754_zero _ => Dyadic 0 0
  | S754_infinity s => Inf s
  | S754_nan => NaN
  | S754_finite s m e => Dyadic (if s then Z.neg m else Z.pos m) e
  end.

(** [bool] is a subclass of [int]: [True] counts as 1. *)
Definition num_of (v : value) : option num :=
  match v with
  | VBool b => Some (Dyadic (if b then 1 else 0) 0)
  | VInt z => Some (Dyadic z 0)
  | VFloat f => Some (num_of_float f)
  | _ => None
  end.

(** Python compares an [int] and a [float] by their exact values. *)
Definition num_eq (x y : num) : bool :=
  match x, y with
  | Dyadic m1 e1, Dyadic m2 e2 =>
      let e := Z.min e1 e2 in
      (m1 * 2 ^ (e1 - e) =? m2 * 2 ^ (e2 - e))
  | Inf s1, Inf s2 => Bool.eqb s1 s2
  | _, _ => false
  end.

(** [==] on values.  The two operands always come from separate
    [json.load] calls or from a literal, so no two containers are the
    same object and a NaN never equals anything. *)
Fixpoint py_eq (a b : value) {struct a} : bool :=
  match a, b with
  | VNone, VNone => true
  | VStr s, VStr t => bool_decide (s = t)
  | VList l1, VList l2 =>
      (fix go (l1 l2 : list value) {struct l1} : bool :=
         match l1, l2 with
         | [], [] => true
         | x :: l1', y :: l2' => py_eq x y && go l1' l2'
         | _, _ => false
         end) l1 l2
  | VDict d1, VDict d2 =>
      bool_decide (size d1 = size d2) &&
      map_fold (fun k v acc =>
                  acc && match d2 !! k with
                         | Some w => py_eq v w
                         | None => false
                         end) true d1
  | _, _ =>
      match num_of a, num_of b with
      | Some x, Some y => num_eq x y
      | _, _ => false
      end
  end.

(** [int(f)] for a float: truncation toward zero. *)
Definition float_trunc (f : spec_float) : result Z :=
  match num_of_float f with
  | Dyadic m e => Ok (if 0 <=? e then m * 2 ^ e else Z.quot m (2 ^ (- e)))
  | Inf _ => Raise OverflowError
  | NaN => Raise ValueError
  end.

(** ** Dictionary and list primitives *)

(** [it.get(key, dflt)] *)
Definition get (it : value) (key : string) (dflt : value) : result value :=
  match it with
  | VDict d => Ok (default dflt (d !! key))
  | _ => Raise AttributeError
  end.

(** [it[key]] with a [str] key *)
Definition getitem (it : value) (key : string) : result value :=
  match it with
  | VDict d =>
      match d !! key with
      | Some v => Ok v
      | None => Raise KeyError
      end
  | _ => Raise TypeError
  end.

(** [it[key] = v] with a [str] key *)
Definition setitem (it : value) (key : string) (v : value) : result value :=
  match it with
  | VDict d => Ok (VDict (<[key := v]> d))
  | _ => Raise TypeError
  end.

(** [it.update(patch)]: the keys of [patch] win. *)
Definition dict_update (it : value) (patch : gmap string value) : result value :=
  match it with
  | VDict d => Ok (VDict (patch ∪ d))
  | _ => Raise AttributeError
  end.

(** [xs.append(x)] *)
Definition append (xs : value) (x : value) : result value :=
  match xs with
  | VList l => Ok (VList (l ++ [x]))
  | _ => Raise AttributeError
  end.

(** What a [for] loop or a comprehension iterates over.  A [dict] yields
    its keys and a [str] its characters.  Two things are not represented
    here: the insertion order of a dict's keys (they come in the map's own
    order) and the code points of a [str] (there is one element per
    byte).  Every element is a [str] either way, on which [it["id"]] and
    [it.get] raise at once; the properties below are stated for files
    that hold a list. *)
Definition py_iter (v : value) : result (list value) :=
  match v with
  | VList l => Ok l
  | VDict d => Ok (map (fun kv => VStr (fst kv)) (map_to_list d))
  | VStr s => Ok (map (fun c => VStr (String c EmptyString)) (list_ascii_of_string s))
  | _ => Raise TypeError
  end.

(** Truth value of a [str]. *)
Definition truthy (s : string) : bool := negb (bool_decide (s = ""%string)).

(** ** Persistent state *)

(** [issues.json] as [load_data] observes it: absent; present but [open]
    raises; present but [json.load] raises; or holding the JSON text of a
    value. *)
Inductive db_file : Type :=
| NoFile
| OpenFails (e : exn)
| LoadFails (e : exn)
| Json (v : value).

Definition load_data (db : db_file) : result value :=
  match db with
  | NoFile => Ok (VList [])
  | OpenFails e => Raise e
  | LoadFails JSONDecodeError => Ok (VList [])
  | LoadFails e => Raise e
  | Json v => Ok v
  end.

(** [save_data] rewrites the whole file; the write itself is taken to
    succeed. *)
Definition save_data (items : value) : db_file := Json items.

(** ** Mutations *)

(** The loop shared by [update_issue], [upvote_issue] and [add_update]:
    [[
      for i, it in enumerate(data):
          if it["id"] == issue_id:
              <body>; data[i] = it; break
    ]] *)
Fixpoint patch_first (issue_id : value) (body : value -> result value)
    (data : list value) : result (list value) :=
  match data with
  | [] => Ok []
  | it :: rest =>
      idv ← getitem it "id";
      if py_eq idv issue_id
      then it' ← body it; Ok (it' :: rest)
      else rest' ← patch_first issue_id body rest; Ok (it :: rest')
  end.

(** The loop run over whatever [load_data] returned.  Only a [list] can be
    patched; for other iterables the loop body never gets past
    [it["id"]]. *)
Definition patch_loaded (issue_id : value) (body : value -> result value)
    (data : value) : result value :=
  match data with
  | VList l => l' ← patch_first issue_id body l; Ok (VList l')
  | _ => items ← py_iter data; _ ← patch_first issue_id body items; Ok data
  end.

Definition add_issue (issue : value) (db : db_file) : result db_file :=
  data ← load_data db;
  data' ← append data issue;
  Ok (save_data data').

Definition update_issue (issue_id : value) (patch : gmap string value)
    (db : db_file) : result db_file :=
  data ← load_data db;
  data' ← patch_loaded issue_id (fun it => dict_update it patch) data;
  Ok (save_data data').

(** ** The parts of the Python library the code calls on strings

    [int(s)], [str(v)], [s.strip()] and [s.lower()] are CPython's; they
    are taken as they are, as parameters of the model. *)
Section Library.

(** [int(s)] for a [str]: [None] when it raises [ValueError]. *)
Variable int_of_str : string -> option Z.
(** [str(v)] for a value that is not a [str]. *)
Variable str_of : value -> string.
(** [s.strip()] *)
Variable strip : string -> string.
(** [s.lower()] *)
Variable lower : string -> string.

(** [int(v)] *)
Definition py_int (v : value) : result Z :=
  match v with
  | VBool b => Ok (if b then 1 else 0)
  | VInt z => Ok z
  | VFloat f => float_trunc f
  | VStr s =>
      match int_of_str s with
      | Some z => Ok z
      | None => Raise ValueError
      end
  | _ => Raise TypeError
  end.

(** A replacement field [{v}] of an f-string. *)
Definition fmt (v : value) : string :=
  match v with
  | VStr s => s
  | _ => str_of v
  end.

(** [it["votes"] = int(it.get("votes", 0)) + 1] *)
Definition upvote_body (it : value) : result value :=
  v ← get it "votes" (VInt 0);
  n ← py_int v;
  setitem it "votes" (VInt (n + 1)).

Definition upvote_issue (issue_id : value) (db : db_file) : result db_file :=
  data ← load_data db;
  data' ← patch_loaded issue_id upvote_body data;
  Ok (save_data data').

(** [status or it.get("status", "open")] *)
Definition status_or_current (status : option string) (it : value) : result value :=
  match status with
  | Some s => if truthy s then Ok (VStr s) else get it "status" (VStr "open")
  | None => get it "status" (VStr "open")
  end.

(** The entry [{"ts": ..., "text": ..., "status": ...}] of an update log. *)
Definition update_entry (ts : Z) (text : string) (status : value) : value :=
  VDict (<["ts" := VInt ts]> (<["text" := VStr text]> (<["status" := status]> ∅))).

(** The body of the loop of [add_update]; [now_ms] is
    [int(time.time()*1000)]. *)
Definition add_update_body (now_ms : Z) (text : string) (status : option string)
    (it : value) : result value :=
  updates ← get it "updates" (VList []);
  st ← status_or_current status it;
  updates' ← append updates (update_entry now_ms text st);
  it1 ← setitem it "updates" updates';
  match status with
  | Some s => if truthy s then setitem it1 "status" (VStr s) else Ok it1
  | None => Ok it1
  end.

Definition add_update (now_ms : Z) (issue_id : value) (text : string)
    (status : option string) (db : db_file) : result db_file :=
  data ← load_data db;
  data' ← patch_loaded issue_id (add_update_body now_ms text status) data;
  Ok (save_data data').

(** ** Geocoding *)

Definition coords : Type := spec_float * spec_float.

(** [geocode_address]: the module-level cache is threaded through;
    [service key] is what the rate-limited Nominatim call yields, [None]
    when it finds nothing or raises. *)
Definition geocode_address (service : string -> option coords)
    (cache : gmap string coords) (address : string)
    : option coords * gmap string coords :=
  if truthy address then
    let key := strip address in
    match cache !! key with
    | Some c => (Some c, cache)
    | None =>
        match service key with
        | Some c => (Some c, <[key := c]> cache)
        | None => (None, cache)
        end
    end
  else (None, cache).

(** ** Creation *)

(** What the calls to the clock, the UUID generator and the geocoder
    return during one run of the script. *)
Record env : Type := {
  uuid4 : string;            (* str(uuid.uuid4()) *)
  utcnow_iso : string;       (* datetime.utcnow().isoformat() *)
  time_ms : Z;               (* int(time.time()*1000) *)
  nominatim : string -> option coords;
  upload_dir : string        (* str(UPLOAD_DIR) *)
}.

(** An uploaded or captured photo: [suffix] is
    [pathlib.Path(image_file.name).suffix]. *)
Record upload : Type := {
  suffix : string;
  buffer : list Byte.byte
}.

(** Everything the script keeps between runs. *)
Record world : Type := {
  db : db_file;
  uploads : gmap string (list Byte.byte);
  geocode_cache : gmap string coords
}.

(** [new_issue_payload]: the record, and the upload directory after the
    photo, if any, has been written.  [user_id] is what
    [ensure_user_id()] returns: the script has called it on start-up, so
    it is the identifier of the session. *)
Definition new_issue_payload (e : env) (user_id : string)
    (title description category : string) (lat lng : spec_float)
    (address : string) (image_file : option upload)
    (files : gmap string (list Byte.byte))
    : value * gmap string (list Byte.byte) :=
  let issue_id := uuid4 e in
  let '(image_path, files') :=
    match image_file with
    | Some f =>
        let sfx := if truthy (suffix f) then suffix f else ".jpg"%string in
        let path := (upload_dir e +:+ "/" +:+ issue_id +:+ sfx)%string in
        (VStr path, <[path := buffer f]> files)
    | None => (VNone, files)
    end in
  (VDict (list_to_map [
     ("id", VStr issue_id);
     ("title", VStr (strip title));
     ("description", VStr (strip description));
     ("category", VStr category);
     ("status", VStr "open");
     ("lat", VFloat lat);
     ("lng", VFloat lng);
     ("address", VStr (strip address));
     ("image_path", image_path);
     ("votes", VInt 0);
     ("created_at", VStr (utcnow_iso e +:+ "Z"));
     ("created_by", VStr user_id);
     ("updates", VList [update_entry (time_ms e) "Issue reported" (VStr "open")])
   ]%string), files').

(** What the report form shows after a click on "Submit Issue". *)
Inductive form_outcome : Type :=
| PleaseFillTitleAndDescription
| IssueSubmitted (payload : value)
| Uncaught (x : exn).

(** The handler of the report form (the block under [if submitted:]):
    what is shown, and the state the run leaves behind. *)
Definition submit_report (e : env) (user_id : string)
    (title description category : string) (lat lng : spec_float)
    (address : string) (image_file : option upload) (w : world)
    : form_outcome * world :=
  if negb (truthy (strip title)) || negb (truthy (strip description))
  then (PleaseFillTitleAndDescription, w)
  else
    let '(geo, cache') :=
      if truthy address && truthy (strip address)
      then geocode_address (nominatim e) (geocode_cache w) address
      else (None, geocode_cache w) in
    let '(chosen_lat, chosen_lng) :=
      match geo with
      | Some g => g
      | None => (lat, lng)
      end in
    let '(payload, files') :=
      new_issue_payload e user_id title description category
        chosen_lat chosen_lng address image_file (uploads w) in
    match add_issue payload (db w) with
    | Ok db' =>
        (IssueSubmitted payload,
         {| db := db'; uploads := files'; geocode_cache := cache' |})
    | Raise x =>
        (Uncaught x,
         {| db := db w; uploads := files'; geocode_cache := cache' |})
    end.

(** ** Filtering *)

(** [needle in hay] for two [str]. *)
Fixpoint contains (needle hay : string) : bool :=
  String.prefix needle hay ||
  match hay with
  | EmptyString => false
  | String _ hay' => contains needle hay'
  end.

(** [matches(it)]; [cat], [stt], [q] and [only_mine] are the sidebar
    widgets, [user_id] is [st.session_state.user_id]. *)
Definition matches (cat stt : string) (q : string) (only_mine : bool)
    (user_id : string) (it : value) : result bool :=
  wrong_cat ←
    (if bool_decide (cat = "all"%string) then Ok false
     else c ← get it "category" VNone; Ok (negb (py_eq c (VStr cat))));
  if wrong_cat : bool then Ok false else
  wrong_status ←
    (if bool_decide (stt = "all"%string) then Ok false
     else s ← get it "status" VNone; Ok (negb (py_eq s (VStr stt))));
  if wrong_status : bool then Ok false else
  not_mine ←
    (if only_mine
     then o ← get it "created_by" VNone; Ok (negb (py_eq o (VStr user_id)))
     else Ok false);
  if not_mine : bool then Ok false else
  if truthy q then
    t ← get it "title" (VStr "");
    d ← get it "description" (VStr "");
    a ← get it "address" (VStr "");
    let blob := lower (fmt t +:+ " " +:+ fmt d +:+ " " +:+ fmt a)%string in
    Ok (contains (lower q) blob)
  else Ok true.

(** [[it for it in items if matches(it)]] *)
Fixpoint select (cat stt q : string) (only_mine : bool) (user_id : string)
    (items : list value) : result (list value) :=
  match items with
  | [] => Ok []
  | it :: rest =>
      keep ← matches cat stt q only_mine user_id it;
      rest' ← select cat stt q only_mine user_id rest;
      Ok (if keep : bool then it :: rest' else rest')
  end.

Definition filtered (cat stt q : string) (only_mine : bool) (user_id : string)
    (data : value) : result (list value) :=
  items ← py_iter data;
  select cat stt q only_mine user_id items.

End Library.

(** ** Deletion *)

(** [[x for x in items if x["id"] != it["id"]]] *)
Fixpoint drop_id (it : value) (items : list value) : result (list value) :=
  match items with
  | [] => Ok []
  | x :: rest =>
      a ← getitem x "id";
      b ← getitem it "id";
      rest' ← drop_id it rest;
      Ok (if py_eq a b then rest' else x :: rest')
  end.

(** The "Delete" button of the row that displays [it]: it is only drawn
    when the record belongs to the session; [clicked] tells whether the
    user pressed it. *)
Definition delete_button (user_id : string) (clicked : bool) (it : value)
    (db : db_file) : result db_file :=
  owner ← get it "created_by" VNone;
  if py_eq owner (VStr user_id) then
    if clicked then
      data ← load_data db;
      items ← py_iter data;
      kept ← drop_id it items;
      Ok (save_data (VList kept))
    else Ok db
  else Ok db.

(** ** Display order *)

(** The sort key
    [(x.get("status") != "open", -x.get("votes",0), x.get("created_at",""))]
    where votes are integers and the creation stamp is a string, as in
    every record [new_issue_payload] builds.  Elsewhere (a float or a
    non-number for votes, a stamp that is not a [str], an item that is not
    a [dict]) the outcome of [sorted] depends on which pairs it compares,
    and the key is left undefined. *)
Definition display_key : Type := bool * Z * string.

Definition status_not_open (d : gmap string value) : bool :=
  negb (py_eq (default VNone (d !! "status"%string)) (VStr "open")).

Definition int_votes (d : gmap string value) : option Z :=
  match default (VInt 0) (d !! "votes"%string) with
  | VInt z => Some z
  | VBool b => Some (if b then 1 else 0)
  | _ => None
  end.

Definition str_created_at (d : gmap string value) : option string :=
  match default (VStr "") (d !! "created_at"%string) with
  | VStr c => Some c
  | _ => None
  end.

Definition sort_key (x : value) : option display_key :=
  match x with
  | VDict d =>
      v ← int_votes d;
      c ← str_created_at d;
      Some (status_not_open d, - v, c)
  | _ => None
  end.

(** [a < b] on two keys: the first differing component decides. *)
Definition key_lt (a b : display_key) : bool :=
  let '(a1, a2, a3) := a in
  let '(b1, b2, b3) := b in
  if negb (Bool.eqb a1 b1) then negb a1 && b1
  else if negb (a2 =? b2) then a2 <? b2
  else String.ltb a3 b3.

(** [sorted] is stable: an element is placed after those that compare
    smaller and before everything else that followed it in the input. *)
Fixpoint insert_keyed (x : display_key * value) (l : list (display_key * value))
    : list (display_key * value) :=
  match l with
  | [] => [x]
  | y :: l' => if key_lt (fst y) (fst x) then y :: insert_keyed x l' else x :: y :: l'
  end.

Fixpoint sort_keyed (l : list (display_key * value)) : list (display_key * value) :=
  match l with
  | [] => []
  | x :: l' => insert_keyed x (sort_keyed l')
  end.

Definition with_key (x : value) : option (display_key * value) :=
  k ← sort_key x; Some (k, x).

(** [sorted(filtered, key=lambda x: ..., reverse=False)] *)
Definition display_order (items : list value) : option (list value) :=
  keyed ← mapM with_key items;
  Some (map snd (sort_keyed keyed)).

(** ** Predicates on collections *)

(** [x] is a record whose ["id"] can be read and is not [issue_id]: the
    loops step over it. *)
Definition other_id (issue_id : value) (x : value) : bool :=
  match getitem x "id" with
  | Ok v => negb (py_eq v issue_id)
  | Raise _ => false
  end.


(** [sorted] may leave [a] before [b]: [b < a] does not hold. *)
Definition may_precede (a b : display_key * value) : Prop :=
  key_lt (fst b) (fst a) = false.


(** [x["id"]] can be read. *)
Definition readable_id (x : value) : bool :=
  match getitem x "id" with
  | Ok _ => true
  | Raise _ => false
  end.

(** [n] sequential calls of [step], each started on the state the
    previous one saved. *)
Fixpoint sequentially (n : nat) (step : db_file -> result db_file)
    (db : db_file) : result db_file :=
  match n with
  | O => Ok db
  | S n' => db' ← step db; sequentially n' step db'
  end.

(** ** An ASCII instance of the string library

    [ascii_strip], [ascii_lower] and [ascii_int] agree with CPython on
    strings of ASCII characters, which is all the examples below use;
    [scalar_str] covers [None], booleans and integers. *)

Definition ascii_is_space (c : ascii) : bool :=
  let n := N_of_ascii c in
  (((9 <=? n) && (n <=? 13)) || ((28 <=? n) && (n <=? 32)))%N.

Fixpoint ascii_lstrip (s : string) : string :=
  match s with
  | EmptyString => EmptyString
  | String c s' => if ascii_is_space c then ascii_lstrip s' else s
  end.

Fixpoint ascii_rstrip (s : string) : string :=
  match s with
  | EmptyString => EmptyString
  | String c s' =>
      match ascii_rstrip s' with
      | EmptyString => if ascii_is_space c then EmptyString else String c EmptyString
      | r => String c r
      end
  end.

Definition ascii_strip (s : string) : string := ascii_rstrip (ascii_lstrip s).

Definition ascii_lower_char (c : ascii) : ascii :=
  let n := N_of_ascii c in
  if ((65 <=? n) && (n <=? 90))%N then ascii_of_N (n + 32) else c.

Fixpoint ascii_lower (s : string) : string :=
  match s with
  | EmptyString => EmptyString
  | String c s' => String (ascii_lower_char c) (ascii_lower s')
  end.

Definition ascii_digit (c : ascii) : option Z :=
  let n := N_of_ascii c in
  if ((48 <=? n) && (n <=? 57))%N then Some (Z.of_N (n - 48)) else None.

(** Decimal digits with single underscores between them: the value and
    the number of digits. *)
Fixpoint digits_value (after_digit : bool) (acc : Z) (count : nat) (s : string)
    : option (Z * nat) :=
  match s with
  | EmptyString => if after_digit then Some (acc, count) else None
  | String c s' =>
      match ascii_digit c with
      | Some dgt => digits_value true (10 * acc + dgt) (S count) s'
      | None =>
          if bool_decide (c = "_"%char) && after_digit
          then digits_value false acc count s'
          else None
      end
  end.

(** The blanks [int()] skips around a number: tab to carriage return,
    and the space. *)
Definition int_is_blank (c : ascii) : bool :=
  let n := N_of_ascii c in
  (((9 <=? n) && (n <=? 13)) || (n =? 32))%N.

Fixpoint int_skip_left (s : string) : string :=
  match s with
  | EmptyString => EmptyString
  | String c s' => if int_is_blank c then int_skip_left s' else s
  end.

Fixpoint int_skip_right (s : string) : string :=
  match s with
  | EmptyString => EmptyString
  | String c s' =>
      match int_skip_right s' with
      | EmptyString => if int_is_blank c then EmptyString else String c EmptyString
      | r => String c r
      end
  end.

(** [int(s)]: surrounding blanks, an optional sign, digits with single
    underscores between them, and at most 4300 digits (CPython's default
    limit for the conversion). *)
Definition ascii_int (s : string) : option Z :=
  let t := int_skip_right (int_skip_left s) in
  let '(negative, body) :=
    match t with
    | String "-"%char r => (true, r)
    | String "+"%char r => (false, r)
    | _ => (false, t)
    end in
  match digits_value false 0 0 body with
  | Some (v, count) =>
      if (count <=? 4300)%nat then Some (if negative then - v else v) else None
  | None => None
  end.

(** [str(v)] for [None], booleans and integers.  The text of a float or
    of a container is not modelled (the empty string stands for it); no
    example formats one. *)
Definition scalar_str (v : value) : string :=
  match v with
  | VNone => "None"
  | VBool true => "True"
  | VBool false => "False"
  | VInt z => pretty z
  | VStr s => s
  | _ => ""
  end.

(** ** Sample data *)

Definition sample_entry : value := update_entry 1700000000000 "Issue reported" (VStr "open").

Definition sample_fields (id status owner : string) (votes : Z) (created : string)
    : gmap string value :=
  list_to_map [
    ("id", VStr id);
    ("title", VStr "Pothole on Main St");
    ("description", VStr "Large pothole");
    ("category", VStr "roads");
    ("status", VStr status);
    ("address", VStr "");
    ("image_path", VNone);
    ("votes", VInt votes);
    ("created_at", VStr created);
    ("created_by", VStr owner);
    ("updates", VList [sample_entry])
  ]%string.

Definition sample_record (id status owner : string) (votes : Z) (created : string) : value :=
  VDict (sample_fields id status owner votes created).

(** A record whose title and description are one word each. *)
Definition two_word_record : gmap string value :=
  list_to_map [
    ("id", VStr "X");
    ("title", VStr "Pot");
    ("description", VStr "hole");
    ("address", VStr "")
  ]%string.

(** A version-4 UUID in the form [str(uuid.uuid4())] prints. *)
Definition sample_uuid : string := "9f1c2d3e-4b5a-4c6d-8e7f-0a1b2c3d4e5f".

Definition sample_env : env := {|
  uuid4 := sample_uuid;
  utcnow_iso := "2024-01-01T00:00:00";
  time_ms := 1704067200000;
  nominatim := fun _ => None;
  upload_dir := "uploads"
|}.

Definition empty_world : world := {|
  db := NoFile;
  uploads := ∅;
  geocode_cache := ∅
|}.

Definition world_of (items : list value) : world := {|
  db := Json (VList items);
  uploads := ∅;
  geocode_cache := ∅
|}.

(** The doubles 12.97 and 77.59. *)
Definition main_st : coords :=
  (S754_finite false 7301460895874417 (-49), S754_finite false 5459910860744950 (-46)).

(** ** Session identity *)

(** [ensure_user_id]: [st.session_state] is reduced to its ["user_id"]
    entry, [fresh] is [str(uuid.uuid4())] should the call be made.  The
    function returns the identifier and the session it leaves. *)
Definition ensure_user_id (fresh : string) (session : option string)
    : string * option string :=
  match session with
  | Some u => (u, session)
  | None => (fresh, Some fresh)
  end.

(** ** Categories *)

Record category : Type := {
  cat_id : string;
  label : string;
  color : string
}.

Definition CATEGORIES : list category := [
  {| cat_id := "roads"; label := "Pothole / Road Damage"; color := "#ef4444" |};
  {| cat_id := "lighting"; label := "Street Light"; color := "#f59e0b" |};
  {| cat_id := "waste"; label := "Garbage / Waste"; color := "#10b981" |};
  {| cat_id := "water"; label := "Water / Drainage"; color := "#3b82f6" |};
  {| cat_id := "safety"; label := "Public Safety"; color := "#8b5cf6" |};
  {| cat_id := "other"; label := "Other"; color := "#6b7280" |}
]%string.

Definition STATUS : list string := ["open"; "in_progress"; "resolved"]%string.

(** The loop of [category_meta]: the first entry whose id equals
    [wanted]. *)
Fixpoint first_category (wanted : value) (cs : list category) : option category :=
  match cs with
  | [] => None
  | c :: cs' => if py_eq (VStr (cat_id c)) wanted then Some c else first_category wanted cs'
  end.

(** [category_meta]: [CATEGORIES[-1]] when the loop finds nothing. *)
Definition category_meta (wanted : value) : option category :=
  match first_category wanted CATEGORIES with
  | Some c => Some c
  | None => last CATEGORIES
  end.

(** ** Coordinate back-fill *)

(** [bool(v)] *)
Definition py_truthy (v : value) : bool :=
  match v with
  | VNone => false
  | VBool b => b
  | VInt z => negb (z =? 0)
  | VFloat f =>
      match num_of_float f with
      | Dyadic m _ => negb (m =? 0)
      | _ => true
      end
  | VStr s => truthy s
  | VList l => match l with [] => false | _ => true end
  | VDict d => negb (bool_decide (d = ∅))
  end.

(** [v in (None, 0)] *)
Definition in_none_or_zero (v : value) : bool :=
  py_eq v VNone || py_eq v (VInt 0).

Section Backfill.

Variable strip : string -> string.

(** [geocode_address(v)] for whatever [it.get("address")] holds: a falsy
    value returns [None] at once, a truthy value that is not a [str] has
    no [strip]. *)
Definition geocode_value (service : string -> option coords)
    (cache : gmap string coords) (address : value)
    : result (option coords * gmap string coords) :=
  match address with
  | VStr s => Ok (geocode_address strip service cache s)
  | _ => if py_truthy address then Raise AttributeError else Ok (None, cache)
  end.

(** The first block of the map loop, for one displayed row [it]:
    [[
      if (it.get("lat") in (None, 0) or it.get("lng") in (None, 0)) and it.get("address"):
          geo = geocode_address(it.get("address"))
          if geo:
              it["lat"], it["lng"] = geo
              update_issue(it["id"], {"lat": it["lat"], "lng": it["lng"]})
    ]]
    The result is the row as it is afterwards, the stored file and the
    geocode cache.  (The rest of the loop body draws the marker and is
    not modelled.) *)
Definition backfill_row (service : string -> option coords) (it : value)
    (db : db_file) (cache : gmap string coords)
    : result (value * db_file * gmap string coords) :=
  lat ← get it "lat" VNone;
  no_coords ←
    (if in_none_or_zero lat then Ok true
     else lng ← get it "lng" VNone; Ok (in_none_or_zero lng));
  if no_coords : bool then
    addr ← get it "address" VNone;
    if py_truthy addr then
      found ← geocode_value service cache addr;
      match found with
      | (Some (la, ln), cache') =>
          it1 ← setitem it "lat" (VFloat la);
          it2 ← setitem it1 "lng" (VFloat ln);
          idv ← getitem it2 "id";
          la' ← getitem it2 "lat";
          ln' ← getitem it2 "lng";
          db' ← update_issue idv
                  (<["lat"%string := la']> (<["lng"%string := ln']> ∅)) db;
          Ok (it2, db', cache')
      | (None, cache') => Ok (it, db, cache')
      end
    else Ok (it, db, cache)
  else Ok (it, db, cache).

End Backfill.

(** ** Calls in sequence *)

(** One [add_issue] per element of [issues], in order, each on the file
    the previous call saved. *)
Fixpoint add_in_turn (issues : list value) (db : db_file) : result db_file :=
  match issues with
  | [] => Ok db
  | issue :: rest => db' ← add_issue issue db; add_in_turn rest db'
  end.

(** ** Further sample data *)

(** A record stored without coordinates but with an address. *)
Definition unplaced_fields : gmap string value :=
  list_to_map [
    ("id", VStr "X");
    ("title", VStr "Pothole on Main St");
    ("lat", VNone);
    ("lng", VInt 0);
    ("address", VStr "Main St")
  ]%string.

(** A geocoder that knows one address. *)
Definition main_st_only (key : string) : option coords :=
  if bool_decide (key = "Main St"%string) then Some main_st else None.

(** The sample run with a geocoder that knows Main St. *)
Definition geocoding_env : env := {|
  uuid4 := sample_uuid;
  utcnow_iso := "2024-01-01T00:00:00";
  time_ms := 1704067200000;
  nominatim := main_st_only;
  upload_dir := "uploads"
|}.

Definition sample_photo : upload := {|
  suffix := "";
  buffer := [Byte.xff; Byte.xd8; Byte.xff]
|}.

(** A record reduced to its id, votes and update log. *)
Definition bare_fields (votes updates : value) : gmap string value :=
  list_to_map [("id", VStr "X"); ("votes", votes); ("updates", updates)]%string.

(** A stored object without an id. *)
Definition nameless_fields : gmap string value :=
  list_to_map [("title", VStr "No id")]%string.

(** The double 2.5. *)
Definition two_and_a_half : spec_float := S754_finite false 5 (-1).

(** * Properties *)

(** ** Basic facts about the primitives *)

Lemma py_eq_str (v : value) (s : string) : py_eq v (VStr s) = true <-> v = VStr s.
Proof.
  destruct v as [ | b | z | f | t | l | d]; simpl;
    try (split; [discriminate | congruence]).
  rewrite bool_decide_eq_true. split; congruence.
Qed.


Lemma other_id_dict (issue_id : value) (d : gmap string value) (v : value) :
  d !! "id"%string = Some v -> other_id issue_id (VDict d) = negb (py_eq v issue_id).
Proof. intros H. unfold other_id. simpl. rewrite H. reflexivity. Qed.

(** The loop leaves the list alone when no record carries the id. *)
Lemma patch_first_miss (issue_id : value) (body : value -> result value) (data : list value) :
  forallb (other_id issue_id) data = true ->
  patch_first issue_id body data = Ok data.
Proof.
  induction data as [ | x rest IH]; simpl; [reflexivity | ].
  intros [Hx Hrest]%andb_prop. unfold other_id in Hx.
  destruct (getitem x "id") as [v | e]; [ | discriminate]. simpl.
  apply negb_true_iff in Hx. rewrite Hx, (IH Hrest). reflexivity.
Qed.

(** The loop rewrites the first record that carries the id, in place. *)
Lemma patch_first_hit (issue_id : value) (body : value -> result value)
    (data : list value) (i : nat) (it it' v : value) :
  data !! i = Some it ->
  forallb (other_id issue_id) (take i data) = true ->
  getitem it "id" = Ok v ->
  py_eq v issue_id = true ->
  body it = Ok it' ->
  patch_first issue_id body data = Ok (<[i := it']> data).
Proof.
  revert i. induction data as [ | x rest IH]; intros i Hi Hbefore Hid Heq Hbody.
  - discriminate.
  - destruct i as [ | i]; simpl in *.
    + injection Hi as ->. rewrite Hid. simpl. rewrite Heq, Hbody. reflexivity.
    + apply andb_prop in Hbefore as [Hx Hrest]. unfold other_id in Hx.
      destruct (getitem x "id") as [w | e]; [ | discriminate]. simpl.
      apply negb_true_iff in Hx. rewrite Hx.
      rewrite (IH i Hi Hrest Hid Heq Hbody). reflexivity.
Qed.

Lemma sequentially_S (n : nat) (step : db_file -> result db_file) (db db' : db_file) :
  step db = Ok db' -> sequentially (S n) step db = sequentially n step db'.
Proof. intros H. simpl. rewrite H. reflexivity. Qed.

Section Properties.

Variable int_of_str : string -> option Z.
Variable str_of : value -> string.
Variable strip : string -> string.
Variable lower : string -> string.

(** ** Upvote *)

Lemma upvote_body_dict (d : gmap string value) (n : Z) :
  default (VInt 0) (d !! "votes"%string) = VInt n ->
  upvote_body int_of_str (VDict d) = Ok (VDict (<["votes"%string := VInt (n + 1)]> d)).
Proof. intros H. unfold upvote_body. simpl. rewrite H. reflexivity. Qed.

Lemma upvote_issue_hit (data : list value) (i : nat) (d : gmap string value)
    (s : string) (n : Z) :
  data !! i = Some (VDict d) ->
  d !! "id"%string = Some (VStr s) ->
  default (VInt 0) (d !! "votes"%string) = VInt n ->
  forallb (other_id (VStr s)) (take i data) = true ->
  upvote_issue int_of_str (VStr s) (Json (VList data))
  = Ok (Json (VList (<[i := VDict (<["votes"%string := VInt (n + 1)]> d)]> data))).
Proof.
  intros Hi Hid Hv Hbefore. unfold upvote_issue. simpl.
  erewrite patch_first_hit;
    [reflexivity | exact Hi | exact Hbefore | simpl; rewrite Hid; reflexivity
    | apply py_eq_str; reflexivity | apply upvote_body_dict, Hv].
Qed.

(** C2: on a collection that holds a record with the given id and an
    integer vote count [n], one [upvote_issue] saves the collection with
    that record's votes at [n + 1]; [N] calls in sequence save it with
    votes at [n + N] (so [N] for a new record, which starts at 0).  In the
    saved collection every other field of the record and every other
    record are as before. *)
Theorem upvote_adds_one_per_call (data : list value) (i : nat)
    (d : gmap string value) (s : string) (n : Z) (N : nat) :
  data !! i = Some (VDict d) ->
  d !! "id"%string = Some (VStr s) ->
  d !! "votes"%string = Some (VInt n) ->
  forallb (other_id (VStr s)) (take i data) = true ->
  let d1 := <["votes"%string := VInt (n + 1)]> d in
  let dN := <["votes"%string := VInt (n + Z.of_nat N)]> d in
  let dataN := <[i := VDict dN]> data in
  upvote_issue int_of_str (VStr s) (Json (VList data))
    = Ok (Json (VList (<[i := VDict d1]> data)))
  /\ sequentially N (upvote_issue int_of_str (VStr s)) (Json (VList data))
    = Ok (Json (VList dataN))
  /\ dataN !! i = Some (VDict dN)
  /\ dN !! "votes"%string = Some (VInt (n + Z.of_nat N))
  /\ (forall k : string, k <> "votes"%string -> dN !! k = d !! k)
  /\ (forall j : nat, j <> i -> dataN !! j = data !! j)
  /\ length dataN = length data.
Proof.
  intros Hi Hid Hv Hbefore d1 dN dataN.
  assert (Hlen : (i < length data)%nat) by (eapply lookup_lt_Some; eassumption).
  split; [ | split; [ | repeat split]].
  - apply upvote_issue_hit; try assumption. rewrite Hv. reflexivity.
  - subst dN dataN. clear d1.
    revert data d n Hi Hid Hv Hbefore Hlen.
    induction N as [ | N IH]; intros data d n Hi Hid Hv Hbefore Hlen.
    + simpl. rewrite Z.add_0_r, (insert_id d _ _ Hv), (list_insert_id _ _ _ Hi).
      reflexivity.
    + rewrite (sequentially_S _ _ _ _
                 (upvote_issue_hit data i d s n Hi Hid ltac:(rewrite Hv; reflexivity) Hbefore)).
      rewrite (IH _ (<["votes"%string := VInt (n + 1)]> d) (n + 1)).
      * rewrite insert_insert_eq, list_insert_insert_eq.
        replace (n + 1 + Z.of_nat N) with (n + Z.of_nat (S N)) by lia. reflexivity.
      * apply list_lookup_insert_eq, Hlen.
      * rewrite lookup_insert_ne by discriminate. exact Hid.
      * apply lookup_insert_eq.
      * rewrite take_insert_ge by lia. exact Hbefore.
      * rewrite length_insert. exact Hlen.
  - apply list_lookup_insert_eq, Hlen.
  - apply lookup_insert_eq.
  - intros k Hk. apply lookup_insert_ne. congruence.
  - intros j Hj. apply list_lookup_insert_ne. congruence.
  - apply length_insert.
Qed.

(** ** Update log *)

Lemma add_update_body_given (now_ms : Z) (text s' : string)
    (d : gmap string value) (us : list value) :
  default (VList []) (d !! "updates"%string) = VList us ->
  s' <> ""%string ->
  add_update_body now_ms text (Some s') (VDict d)
  = Ok (VDict (<["status"%string := VStr s']>
                 (<["updates"%string :=
                      VList (us ++ [update_entry now_ms text (VStr s')])]> d))).
Proof.
  intros Hus Hs. unfold add_update_body, status_or_current, truthy. simpl.
  rewrite Hus, bool_decide_eq_false_2 by assumption. reflexivity.
Qed.

Lemma add_update_body_omitted (now_ms : Z) (text : string) (status : option string)
    (d : gmap string value) (us : list value) :
  default (VList []) (d !! "updates"%string) = VList us ->
  status = None \/ status = Some ""%string ->
  add_update_body now_ms text status (VDict d)
  = Ok (VDict (<["updates"%string :=
                   VList (us ++ [update_entry now_ms text
                                   (default (VStr "open") (d !! "status"%string))])]> d)).
Proof.
  intros Hus [-> | ->]; unfold add_update_body, status_or_current; simpl;
    rewrite Hus; reflexivity.
Qed.

Lemma add_update_hit (now_ms : Z) (text : string) (status : option string)
    (data : list value) (i : nat) (d : gmap string value) (s : string) (it' : value) :
  data !! i = Some (VDict d) ->
  d !! "id"%string = Some (VStr s) ->
  forallb (other_id (VStr s)) (take i data) = true ->
  add_update_body now_ms text status (VDict d) = Ok it' ->
  add_update now_ms (VStr s) text status (Json (VList data))
  = Ok (Json (VList (<[i := it']> data))).
Proof.
  intros Hi Hid Hbefore Hbody. unfold add_update. simpl.
  erewrite patch_first_hit;
    [reflexivity | exact Hi | exact Hbefore | simpl; rewrite Hid; reflexivity
    | apply py_eq_str; reflexivity | exact Hbody].
Qed.

(** C3, as amended: on a collection that holds a record with the given id,
    [add_update] appends exactly one entry to that record's update log.
    With a non-empty status the record's status becomes that status and
    the entry carries it, whatever the status was before; with no status
    the record's status field is left as it was and the entry carries the
    record's current status (["open"] if it has none). *)
Theorem add_update_appends_one (now_ms : Z) (text : string) (status : option string)
    (data : list value) (i : nat) (d : gmap string value) (s : string)
    (us : list value) :
  data !! i = Some (VDict d) ->
  d !! "id"%string = Some (VStr s) ->
  default (VList []) (d !! "updates"%string) = VList us ->
  forallb (other_id (VStr s)) (take i data) = true ->
  status <> Some ""%string ->
  let carried :=
    match status with
    | Some s' => VStr s'
    | None => default (VStr "open") (d !! "status"%string)
    end in
  let log := us ++ [update_entry now_ms text carried] in
  let d' :=
    match status with
    | Some s' => <["status"%string := VStr s']> (<["updates"%string := VList log]> d)
    | None => <["updates"%string := VList log]> d
    end in
  add_update now_ms (VStr s) text status (Json (VList data))
    = Ok (Json (VList (<[i := VDict d']> data)))
  /\ d' !! "updates"%string = Some (VList log)
  /\ length log = S (length us)
  /\ d' !! "status"%string
     = match status with
       | Some s' => Some (VStr s')
       | None => d !! "status"%string
       end
  /\ (exists entry : gmap string value,
        log = us ++ [VDict entry]
        /\ entry !! "status"%string = Some carried
        /\ entry !! "text"%string = Some (VStr text)
        /\ entry !! "ts"%string = Some (VInt now_ms)
        /\ (forall k : string, is_Some (entry !! k) ->
              k = "ts"%string \/ k = "text"%string \/ k = "status"%string)).
Proof.
  intros Hi Hid Hus Hbefore Hne carried log d'.
  assert (Hentry : exists entry : gmap string value,
             log = us ++ [VDict entry]
             /\ entry !! "status"%string = Some carried
             /\ entry !! "text"%string = Some (VStr text)
             /\ entry !! "ts"%string = Some (VInt now_ms)
             /\ (forall k : string, is_Some (entry !! k) ->
                   k = "ts"%string \/ k = "text"%string \/ k = "status"%string)).
  { eexists. split; [reflexivity | ].
    split; [reflexivity | ]. split; [reflexivity | ]. split; [reflexivity | ].
    intros k [v Hk].
    destruct (decide (k = "ts"%string)) as [-> | Hts]; [left; reflexivity | ].
    destruct (decide (k = "text"%string)) as [-> | Htext]; [right; left; reflexivity | ].
    destruct (decide (k = "status"%string)) as [-> | Hst]; [right; right; reflexivity | ].
    rewrite !lookup_insert_ne, lookup_empty in Hk by congruence. discriminate. }
  revert Hentry. subst d' log carried. intros Hentry. destruct status as [s' | ].
  - assert (Hs : s' <> ""%string) by congruence.
    split; [ | split; [ | split; [ | split]]].
    + eapply add_update_hit; try eassumption.
      apply add_update_body_given; assumption.
    + rewrite lookup_insert_ne by discriminate. apply lookup_insert_eq.
    + rewrite length_app. simpl. lia.
    + apply lookup_insert_eq.
    + exact Hentry.
  - split; [ | split; [ | split; [ | split]]].
    + eapply add_update_hit; try eassumption.
      apply add_update_body_omitted; [assumption | left; reflexivity].
    + apply lookup_insert_eq.
    + rewrite length_app. simpl. lia.
    + apply lookup_insert_ne. discriminate.
    + exact Hentry.
Qed.

(** C10: an empty-string status is treated as no status at all.  The two
    calls save the same collection: the record's status field is left as
    it was, and the one appended entry carries the record's current
    status, ["open"] when the record has no status field. *)
Theorem add_update_empty_status_as_omitted (now_ms : Z) (text : string)
    (data : list value) (i : nat) (d : gmap string value) (s : string)
    (us : list value) :
  data !! i = Some (VDict d) ->
  d !! "id"%string = Some (VStr s) ->
  default (VList []) (d !! "updates"%string) = VList us ->
  forallb (other_id (VStr s)) (take i data) = true ->
  let current := default (VStr "open") (d !! "status"%string) in
  let d' := <["updates"%string := VList (us ++ [update_entry now_ms text current])]> d in
  add_update now_ms (VStr s) text (Some ""%string) (Json (VList data))
    = add_update now_ms (VStr s) text None (Json (VList data))
  /\ add_update now_ms (VStr s) text (Some ""%string) (Json (VList data))
    = Ok (Json (VList (<[i := VDict d']> data)))
  /\ d' !! "status"%string = d !! "status"%string
  /\ (d !! "status"%string = None -> current = VStr "open")
  /\ (exists entry : gmap string value,
        d' !! "updates"%string = Some (VList (us ++ [VDict entry]))
        /\ entry !! "status"%string = Some current
        /\ (forall v : value, d !! "status"%string = Some v ->
              entry !! "status"%string = Some v)
        /\ entry !! "text"%string = Some (VStr text)
        /\ entry !! "ts"%string = Some (VInt now_ms)).
Proof.
  intros Hi Hid Hus Hbefore current d'.
  assert (Hentry : exists entry : gmap string value,
             d' !! "updates"%string = Some (VList (us ++ [VDict entry]))
             /\ entry !! "status"%string = Some current
             /\ (forall v : value, d !! "status"%string = Some v ->
                   entry !! "status"%string = Some v)
             /\ entry !! "text"%string = Some (VStr text)
             /\ entry !! "ts"%string = Some (VInt now_ms)).
  { eexists. split; [apply lookup_insert_eq | ].
    split; [reflexivity | ]. split; [ | split; reflexivity].
    intros v Hv. subst current. rewrite Hv. reflexivity. }
  revert Hentry. subst d' current. intros Hentry.
  assert (Hempty : add_update now_ms (VStr s) text (Some ""%string) (Json (VList data))
                   = Ok (Json (VList (<[i := VDict
                       (<["updates"%string :=
                            VList (us ++ [update_entry now_ms text
                                    (default (VStr "open") (d !! "status"%string))])]> d)]>
                       data)))).
  { eapply add_update_hit; try eassumption.
    apply add_update_body_omitted; [assumption | right; reflexivity]. }
  split; [ | split; [ | split; [ | split]]].
  - rewrite Hempty. symmetry.
    eapply add_update_hit; try eassumption.
    apply add_update_body_omitted; [assumption | left; reflexivity].
  - exact Hempty.
  - apply lookup_insert_ne. discriminate.
  - intros ->. reflexivity.
  - exact Hentry.
Qed.

(** ** Unknown identifiers *)

(** C9: when no stored record carries the id, [upvote_issue], [add_update]
    and [update_issue] (the coordinate back-fill) return normally, and the
    collection they save is the collection they loaded. *)
Theorem unknown_id_is_noop (db : db_file) (data : list value) (issue_id : value)
    (now_ms : Z) (text : string) (status : option string)
    (patch : gmap string value) :
  load_data db = Ok (VList data) ->
  forallb (other_id issue_id) data = true ->
  upvote_issue int_of_str issue_id db = Ok (save_data (VList data))
  /\ add_update now_ms issue_id text status db = Ok (save_data (VList data))
  /\ update_issue issue_id patch db = Ok (save_data (VList data))
  /\ load_data (save_data (VList data)) = Ok (VList data).
Proof.
  intros Hload Hmiss.
  unfold upvote_issue, add_update, update_issue. rewrite Hload. simpl.
  rewrite !patch_first_miss by assumption. simpl. repeat split; reflexivity.
Qed.

(** ** Loading *)

(** C7, as amended: [load_data] returns the empty collection when there is
    no file and when the file's text is not well-formed JSON; a file that
    holds a JSON value yields that value; any other failure to open or
    read the file is raised to the caller. *)
Theorem load_data_tolerates_bad_json :
  load_data NoFile = Ok (VList [])
  /\ load_data (LoadFails JSONDecodeError) = Ok (VList [])
  /\ (forall v : value, load_data (Json v) = Ok v)
  /\ (forall e : exn,
        load_data (LoadFails e)
        = match e with
          | JSONDecodeError => Ok (VList [])
          | _ => Raise e
          end)
  /\ (forall e : exn, load_data (OpenFails e) = Raise e).
Proof.
  repeat split; reflexivity.
Qed.

(** ** Creation *)

(** C8: a submission whose stripped title or stripped description is
    empty is answered with the "please fill" message, and the run leaves
    the stored collection, the upload directory and the geocode cache
    exactly as they were. *)
Theorem submit_rejects_blank (e : env) (user_id title description category : string)
    (lat lng : spec_float) (address : string) (image_file : option upload)
    (w : world) :
  strip title = ""%string \/ strip description = ""%string ->
  submit_report strip e user_id title description category lat lng address
    image_file w
  = (PleaseFillTitleAndDescription, w).
Proof.
  intros H. unfold submit_report, truthy.
  destruct H as [-> | ->]; simpl; [reflexivity | ].
  rewrite orb_true_r. reflexivity.
Qed.


(** ** Deletion *)

Lemma drop_id_filter (d : gmap string value) (s : string) (items : list value) :
  d !! "id"%string = Some (VStr s) ->
  forallb readable_id items = true ->
  drop_id (VDict d) items = Ok (List.filter (other_id (VStr s)) items).
Proof.
  intros Hid. induction items as [ | x rest IH]; simpl; [reflexivity | ].
  intros [Hx Hrest]%andb_prop. rewrite (IH Hrest). rewrite Hid.
  unfold readable_id in Hx. unfold other_id.
  destruct (getitem x "id") as [v | ?]; [ | discriminate]. simpl.
  destruct (py_eq v (VStr s)); reflexivity.
Qed.

Lemma created_by_matches (d : gmap string value) (requester : string) :
  py_eq (default VNone (d !! "created_by"%string)) (VStr requester) = true
  <-> d !! "created_by"%string = Some (VStr requester).
Proof.
  rewrite py_eq_str. destruct (d !! "created_by"%string); simpl; split; congruence.
Qed.

(** C4: pressing "Delete" on the row of a stored record removes the
    records carrying its id exactly when the session's identifier equals
    the record's [created_by]; otherwise no button exists, nothing is
    saved, and the record is still in what [load_data] returns. *)
Theorem delete_iff_owner (requester : string) (data : list value) (i : nat)
    (d : gmap string value) (s : string) :
  data !! i = Some (VDict d) ->
  d !! "id"%string = Some (VStr s) ->
  forallb readable_id data = true ->
  exists out : list value,
    delete_button requester true (VDict d) (Json (VList data)) = Ok (Json (VList out))
    /\ load_data (Json (VList out)) = Ok (VList out)
    /\ (d !! "created_by"%string = Some (VStr requester) ->
        out = List.filter (other_id (VStr s)) data)
    /\ (d !! "created_by"%string <> Some (VStr requester) -> out = data)
    /\ (VDict d ∈ out <-> d !! "created_by"%string <> Some (VStr requester)).
Proof.
  intros Hi Hid Hreadable. unfold delete_button. simpl.
  destruct (py_eq (default VNone (d !! "created_by"%string)) (VStr requester)) eqn:Hown.
  - apply created_by_matches in Hown.
    rewrite (drop_id_filter d s data Hid Hreadable). simpl.
    eexists. split; [reflexivity | ]. split; [reflexivity | ].
    split; [reflexivity | ]. split; [congruence | ].
    split; [ | congruence].
    intros Hin. apply list_elem_of_In, filter_In in Hin as [_ Hother].
    rewrite (other_id_dict _ _ _ Hid) in Hother. simpl in Hother.
    rewrite bool_decide_eq_true_2 in Hother by reflexivity. discriminate.
  - assert (Hnot : d !! "created_by"%string <> Some (VStr requester)).
    { intros H. apply created_by_matches in H. congruence. }
    exists data. split; [reflexivity | ]. split; [reflexivity | ].
    split; [congruence | ]. split; [reflexivity | ].
    split; [intros _; exact Hnot | ].
    intros _. apply list_elem_of_lookup. exists i. exact Hi.
Qed.

(** ** Filtering *)

Lemma matches_dict (cat stt q : string) (only_mine : bool) (user_id : string)
    (d : gmap string value) :
  matches str_of lower cat stt q only_mine user_id (VDict d)
  = Ok ((bool_decide (cat = "all"%string)
         || py_eq (default VNone (d !! "category"%string)) (VStr cat))
        && (bool_decide (stt = "all"%string)
            || py_eq (default VNone (d !! "status"%string)) (VStr stt))
        && (negb only_mine
            || py_eq (default VNone (d !! "created_by"%string)) (VStr user_id))
        && (negb (truthy q)
            || contains (lower q)
                 (lower (fmt str_of (default (VStr "") (d !! "title"%string))
                         +:+ " " +:+
                         fmt str_of (default (VStr "") (d !! "description"%string))
                         +:+ " " +:+
                         fmt str_of (default (VStr "") (d !! "address"%string)))))).
Proof.
  unfold matches. simpl.
  destruct (bool_decide (cat = "all"%string)); simpl;
    [ | destruct (py_eq _ (VStr cat)); simpl; [ | reflexivity]];
    (destruct (bool_decide (stt = "all"%string)); simpl;
     [ | destruct (py_eq _ (VStr stt)); simpl; [ | reflexivity]]);
    (destruct only_mine; simpl;
     [destruct (py_eq _ (VStr user_id)); simpl; [ | reflexivity] | ]);
    destruct (truthy q); reflexivity.
Qed.

Lemma lookup_default_none (d : gmap string value) (k s : string) :
  py_eq (default VNone (d !! k)) (VStr s) = true <-> d !! k = Some (VStr s).
Proof.
  rewrite py_eq_str. destruct (d !! k); simpl; split; congruence.
Qed.

Lemma select_dicts (cat stt q : string) (only_mine : bool) (user_id : string)
    (data : list (gmap string value)) :
  select str_of lower cat stt q only_mine user_id (VDict <$> data)
  = Ok (VDict <$>
          List.filter
            (fun d => match matches str_of lower cat stt q only_mine user_id (VDict d) with
                      | Ok b => b
                      | Raise _ => false
                      end) data).
Proof.
  induction data as [ | d rest IH]; [reflexivity | ].
  cbn [fmap list_fmap select List.filter]. rewrite matches_dict. cbn [mbind result_bind].
  change (list_fmap _ _ VDict rest) with (VDict <$> rest). rewrite IH.
  cbn [mbind result_bind]. destruct (_ && _); reflexivity.
Qed.

(** C6, as amended: a record is kept exactly when its category is the
    chosen one or the choice is ["all"], its status likewise, the
    lower-cased query (if not empty) occurs in the lower-cased text
    "title description address" (the three fields joined by single
    spaces, a missing field counting as empty), and, with "only my
    issues" ticked, its [created_by] is the session's identifier.  The
    filtered list is the stored records for which this holds, in stored
    order. *)
Theorem filter_keeps_matching (cat stt q : string) (only_mine : bool)
    (user_id : string) (data : list (gmap string value)) :
  let text := fun (d : gmap string value) (k : string) =>
    fmt str_of (default (VStr "") (d !! k)) in
  let blob := fun d =>
    lower (text d "title" +:+ " " +:+ text d "description" +:+ " " +:+ text d "address")%string in
  let keeps := fun d : gmap string value =>
    (cat = "all"%string \/ d !! "category"%string = Some (VStr cat))
    /\ (stt = "all"%string \/ d !! "status"%string = Some (VStr stt))
    /\ (q <> ""%string -> contains (lower q) (blob d) = true)
    /\ (only_mine = true -> d !! "created_by"%string = Some (VStr user_id)) in
  (forall d, exists b : bool,
      matches str_of lower cat stt q only_mine user_id (VDict d) = Ok b
      /\ (b = true <-> keeps d))
  /\ filtered str_of lower cat stt q only_mine user_id (VList (VDict <$> data))
     = Ok (VDict <$>
             List.filter
               (fun d => match matches str_of lower cat stt q only_mine user_id (VDict d) with
                         | Ok b => b
                         | Raise _ => false
                         end) data).
Proof.
  intros text blob keeps. split.
  - intros d. eexists. split; [apply matches_dict | ].
    subst keeps blob text. cbv beta.
    rewrite !andb_true_iff, !orb_true_iff, !bool_decide_eq_true,
      !lookup_default_none, !negb_true_iff.
    unfold truthy. rewrite negb_false_iff, bool_decide_eq_true.
    split.
    + intros [[[Hc Hs] Ho] Hq]. repeat split; try assumption.
      * intros Hne. destruct Hq as [Hq | Hq]; [contradiction | exact Hq].
      * intros ->. destruct Ho as [Ho | Ho]; [discriminate | exact Ho].
    + intros (Hc & Hs & Hq & Ho). repeat split; try assumption.
      * destruct only_mine; [right; apply Ho; reflexivity | left; reflexivity].
      * destruct (decide (q = ""%string)) as [Hem | Hne]; [left; exact Hem | right; auto].
  - unfold filtered. simpl. apply select_dicts.
Qed.

End Properties.

(** ** Display order *)

Lemma string_ltb_leb (s t : string) : String.ltb s t = negb (String.leb t s).
Proof.
  unfold String.ltb, String.leb. rewrite (String.compare_antisym s t).
  destruct (String.compare t s); reflexivity.
Qed.

Lemma string_leb_trans (s t u : string) :
  String.leb s t = true -> String.leb t u = true -> String.leb s u = true.
Proof.
  intros H1 H2. apply Is_true_true.
  apply Is_true_true in H1, H2.
  exact (transitivity (R := String.le) H1 H2).
Qed.

Lemma string_leb_refl (s : string) : String.leb s s = true.
Proof. apply Is_true_true. exact (reflexivity (R := String.le) s). Qed.

(** [key_lt] is the strict part of a total preorder. *)
Lemma key_lt_spec (a b : display_key) :
  key_lt b a = false <->
  (a.1.1 = false /\ b.1.1 = true)
  \/ (a.1.1 = b.1.1
      /\ (a.1.2 < b.1.2 \/ (a.1.2 = b.1.2 /\ String.leb a.2 b.2 = true))).
Proof.
  destruct a as [[a1 a2] a3], b as [[b1 b2] b3]. unfold key_lt. simpl.
  rewrite string_ltb_leb.
  destruct (Z.eqb_spec b2 a2) as [Heq | Hne], (Z.ltb_spec b2 a2) as [Hlt | Hge],
    (String.leb a3 b3);
    destruct a1, b1; simpl; split; intros Hgoal; try reflexivity;
    try discriminate; try lia; intuition (try discriminate; try lia).
Qed.

Lemma may_precede_total (a b : display_key * value) :
  key_lt (fst a) (fst b) = true -> may_precede a b.
Proof.
  unfold may_precede.
  destruct a as [[[a1 a2] a3] xa], b as [[[b1 b2] b3] xb]. unfold key_lt. simpl.
  rewrite !string_ltb_leb.
  destruct (String.leb_total a3 b3) as [Hs | Hs]; rewrite Hs;
    destruct (Z.eqb_spec a2 b2) as [Heq | Hne], (Z.eqb_spec b2 a2) as [Heq' | Hne'],
      (Z.ltb_spec a2 b2) as [Hlt | Hge], (Z.ltb_spec b2 a2) as [Hlt' | Hge'];
    destruct a1, b1; simpl; intros Hab; try reflexivity; try discriminate; try lia.
Qed.

Lemma may_precede_trans (a b c : display_key * value) :
  may_precede a b -> may_precede b c -> may_precede a c.
Proof.
  unfold may_precede. rewrite !key_lt_spec.
  intros [[Ha Hb] | [Hab H1]] [[Hb' Hc] | [Hbc H2]].
  - congruence.
  - left. split; congruence.
  - left. split; congruence.
  - right. split; [congruence | ].
    destruct H1 as [H1 | [H1 H1s]], H2 as [H2 | [H2 H2s]];
      [left; lia | left; lia | left; lia | right].
    split; [lia | eapply string_leb_trans; eassumption].
Qed.

Lemma insert_keyed_perm (x : display_key * value) (l : list (display_key * value)) :
  Permutation (insert_keyed x l) (x :: l).
Proof.
  induction l as [ | y l IH]; simpl; [reflexivity | ].
  destruct (key_lt y.1 x.1); [ | reflexivity].
  rewrite IH. apply perm_swap.
Qed.

Lemma sort_keyed_perm (l : list (display_key * value)) :
  Permutation (sort_keyed l) l.
Proof.
  induction l as [ | x l IH]; simpl; [reflexivity | ].
  rewrite insert_keyed_perm. apply perm_skip, IH.
Qed.

Lemma insert_keyed_sorted (x : display_key * value) (l : list (display_key * value)) :
  StronglySorted may_precede l -> StronglySorted may_precede (insert_keyed x l).
Proof.
  induction 1 as [ | y l Hl IH Hy]; simpl.
  - repeat constructor.
  - destruct (key_lt y.1 x.1) eqn:Hyx.
    + constructor; [exact IH | ].
      rewrite (Forall_forall (may_precede y)). intros z Hz.
      rewrite insert_keyed_perm in Hz. apply elem_of_cons in Hz as [-> | Hz].
      * apply may_precede_total, Hyx.
      * rewrite (Forall_forall (may_precede y)) in Hy. apply Hy, Hz.
    + constructor; [constructor; assumption | ].
      constructor; [exact Hyx | ].
      rewrite (Forall_forall (may_precede x)). intros z Hz.
      rewrite (Forall_forall (may_precede y)) in Hy.
      eapply may_precede_trans; [exact Hyx | apply Hy, Hz].
Qed.

Lemma sort_keyed_sorted (l : list (display_key * value)) :
  StronglySorted may_precede (sort_keyed l).
Proof.
  induction l as [ | x l IH]; simpl; [constructor | ].
  apply insert_keyed_sorted, IH.
Qed.

(** [sorted] is stable: the records that share a key come out in the
    order they went in. *)
Lemma insert_keyed_stable (k : display_key) (x : display_key * value)
    (l : list (display_key * value)) :
  List.filter (fun y => bool_decide (fst y = k)) (insert_keyed x l)
  = List.filter (fun y => bool_decide (fst y = k)) (x :: l).
Proof.
  induction l as [ | y l IH]; [reflexivity | ].
  simpl insert_keyed. destruct (key_lt y.1 x.1) eqn:Hyx; [ | reflexivity].
  simpl in *. rewrite IH.
  destruct (bool_decide (y.1 = k)) eqn:Hy, (bool_decide (x.1 = k)) eqn:Hx;
    try reflexivity.
  apply bool_decide_eq_true in Hy, Hx.
  assert (Hrefl : key_lt y.1 x.1 = false).
  { rewrite Hy, Hx. apply key_lt_spec. right.
    split; [reflexivity | right; split; [reflexivity | apply string_leb_refl]]. }
  congruence.
Qed.

Lemma sort_keyed_stable (k : display_key) (l : list (display_key * value)) :
  List.filter (fun y => bool_decide (fst y = k)) (sort_keyed l)
  = List.filter (fun y => bool_decide (fst y = k)) l.
Proof.
  induction l as [ | x l IH]; [reflexivity | ].
  simpl sort_keyed. rewrite insert_keyed_stable. simpl. rewrite IH. reflexivity.
Qed.





(** * Worked instances *)

(** ** Where the written claims and the code part ways *)

(** C3 as stated fails for a status that is given but empty: the record
    keeps its status and the entry carries the old one. *)
Lemma add_update_given_empty_status :
  exists d' entry : gmap string value,
    add_update 5 (VStr "X") "note" (Some ""%string)
      (Json (VList [sample_record "X" "resolved" "user-7" 0 "2024-01-01T00:00:00Z"]))
    = Ok (Json (VList [VDict d']))
    /\ d' !! "status"%string = Some (VStr "resolved")
    /\ d' !! "updates"%string = Some (VList [sample_entry; VDict entry])
    /\ entry !! "status"%string = Some (VStr "resolved")
    /\ entry !! "text"%string = Some (VStr "note").
Proof.
  eexists _, _. split; [reflexivity | ]. repeat split; reflexivity.
Qed.


(** C6 as stated fails: the query "pothole" occurs in the plain
    concatenation of the title "Pot" and the description "hole", yet the
    record is not kept, because the code searches "pot hole ". *)
Lemma query_across_fields_is_not_found :
  matches scalar_str ascii_lower "all" "all" "pothole" false "user-7"
    (VDict two_word_record)
  = Ok false
  /\ two_word_record !! "title"%string = Some (VStr "Pot")
  /\ two_word_record !! "description"%string = Some (VStr "hole")
  /\ two_word_record !! "address"%string = Some (VStr "")
  /\ contains (ascii_lower "pothole") (ascii_lower ("Pot" +:+ "hole" +:+ "")) = true.
Proof. repeat split; vm_compute; reflexivity. Qed.

(** C7 as stated fails: a file whose bytes are not valid UTF-8 makes
    [json.load] raise [UnicodeDecodeError], which [load_data] lets
    through. *)
Lemma load_data_lets_decoding_errors_through :
  load_data (LoadFails UnicodeDecodeError) = Raise UnicodeDecodeError
  /\ load_data (LoadFails UnicodeDecodeError) <> Ok (VList []).
Proof. split; [reflexivity | discriminate]. Qed.

(** ** The theorems at work on sample data *)


(** Two upvotes in a row on a new record with id "X". *)
Lemma upvote_adds_one_per_call_witness :
  sequentially 2 (upvote_issue ascii_int (VStr "X"))
    (Json (VList [sample_record "W" "open" "user-7" 3 "2023-12-31T00:00:00Z";
                  sample_record "X" "open" "user-7" 0 "2024-01-01T00:00:00Z"]))
  = Ok (Json (VList [sample_record "W" "open" "user-7" 3 "2023-12-31T00:00:00Z";
                     sample_record "X" "open" "user-7" 2 "2024-01-01T00:00:00Z"])).
Proof.
  refine (proj1 (proj2
    (upvote_adds_one_per_call ascii_int
       [sample_record "W" "open" "user-7" 3 "2023-12-31T00:00:00Z";
        sample_record "X" "open" "user-7" 0 "2024-01-01T00:00:00Z"]
       1 (sample_fields "X" "open" "user-7" 0 "2024-01-01T00:00:00Z") "X" 0 2
       _ _ _ _))); reflexivity.
Defined.

(** A resolved record is reopened. *)
Lemma add_update_appends_one_witness :
  add_update 5 (VStr "X") "Reopened" (Some "open"%string)
    (Json (VList [sample_record "X" "resolved" "user-7" 0 "2024-01-01T00:00:00Z"]))
  = Ok (Json (VList
      [VDict (<["status"%string := VStr "open"]>
                (<["updates"%string :=
                     VList [sample_entry; update_entry 5 "Reopened" (VStr "open")]]>
                   (sample_fields "X" "resolved" "user-7" 0 "2024-01-01T00:00:00Z")))])).
Proof.
  refine (proj1
    (add_update_appends_one 5 "Reopened" (Some "open"%string)
       [sample_record "X" "resolved" "user-7" 0 "2024-01-01T00:00:00Z"]
       0 (sample_fields "X" "resolved" "user-7" 0 "2024-01-01T00:00:00Z") "X"
       [sample_entry] _ _ _ _ _)); try reflexivity.
  discriminate.
Defined.

(** "user-42" has no delete button on a record of "user-7". *)
Lemma delete_iff_owner_witness :
  exists out : list value,
    delete_button "user-42" true
      (sample_record "X" "open" "user-7" 0 "2024-01-01T00:00:00Z")
      (Json (VList [sample_record "X" "open" "user-7" 0 "2024-01-01T00:00:00Z"]))
    = Ok (Json (VList out))
    /\ out = [sample_record "X" "open" "user-7" 0 "2024-01-01T00:00:00Z"].
Proof.
  destruct (delete_iff_owner "user-42"
              [sample_record "X" "open" "user-7" 0 "2024-01-01T00:00:00Z"]
              0 (sample_fields "X" "open" "user-7" 0 "2024-01-01T00:00:00Z") "X")
    as (out & Hrun & _ & _ & Hkeep & _); try reflexivity.
  exists out. split; [exact Hrun | ]. apply Hkeep. vm_compute. discriminate.
Defined.


(** A title of blanks only. *)
Lemma submit_rejects_blank_witness :
  submit_report ascii_strip sample_env "user-7" "   " "Large pothole" "roads"
    (fst main_st) (snd main_st) "" None empty_world
  = (PleaseFillTitleAndDescription, empty_world).
Proof.
  apply (submit_rejects_blank ascii_strip). left. reflexivity.
Defined.

(** Upvote, update and back-fill aimed at an id that is not stored. *)
Lemma unknown_id_is_noop_witness :
  let data := [sample_record "X" "open" "user-7" 0 "2024-01-01T00:00:00Z"] in
  upvote_issue ascii_int (VStr "Z") (Json (VList data)) = Ok (save_data (VList data))
  /\ add_update 5 (VStr "Z") "note" None (Json (VList data)) = Ok (save_data (VList data))
  /\ update_issue (VStr "Z")
       (<["lat"%string := VFloat (fst main_st)]> (<["lng"%string := VFloat (snd main_st)]> ∅))
       (Json (VList data))
     = Ok (save_data (VList data))
  /\ load_data (save_data (VList data)) = Ok (VList data).
Proof.
  intros data. apply (unknown_id_is_noop ascii_int); reflexivity.
Defined.

(** An empty status on a resolved record. *)
Lemma add_update_empty_status_as_omitted_witness :
  add_update 5 (VStr "X") "note" (Some ""%string)
    (Json (VList [sample_record "X" "resolved" "user-7" 0 "2024-01-01T00:00:00Z"]))
  = add_update 5 (VStr "X") "note" None
    (Json (VList [sample_record "X" "resolved" "user-7" 0 "2024-01-01T00:00:00Z"])).
Proof.
  refine (proj1
    (add_update_empty_status_as_omitted 5 "note"
       [sample_record "X" "resolved" "user-7" 0 "2024-01-01T00:00:00Z"]
       0 (sample_fields "X" "resolved" "user-7" 0 "2024-01-01T00:00:00Z") "X"
       [sample_entry] _ _ _ _)); reflexivity.
Defined.

(** ** Scenarios of the specification *)

(** A first report filed into an empty store: afterwards the store holds
    exactly that record. *)
Example first_report_is_stored :
  exists (p : gmap string value) (w' : world),
    submit_report ascii_strip sample_env "user-7" "Pothole on Main St" "Large pothole"
      "roads" (fst main_st) (snd main_st) "" None empty_world
    = (IssueSubmitted (VDict p), w')
    /\ load_data (db w') = Ok (VList [VDict p])
    /\ p !! "category"%string = Some (VStr "roads")
    /\ p !! "status"%string = Some (VStr "open")
    /\ p !! "votes"%string = Some (VInt 0).
Proof.
  eexists _, _. split; [reflexivity | ]. repeat split; reflexivity.
Qed.

(** "Crew dispatched" on an open record: status [in_progress], and a log
    of two entries. *)
Example crew_dispatched :
  add_update 5 (VStr "X") "Crew dispatched" (Some "in_progress"%string)
    (Json (VList [sample_record "X" "open" "user-7" 0 "2024-01-01T00:00:00Z"]))
  = Ok (Json (VList
      [VDict (<["status"%string := VStr "in_progress"]>
                (<["updates"%string :=
                     VList [sample_entry;
                            update_entry 5 "Crew dispatched" (VStr "in_progress")]]>
                   (sample_fields "X" "open" "user-7" 0 "2024-01-01T00:00:00Z")))])).
Proof. vm_compute. reflexivity. Qed.

(** The owner's click removes the record. *)
Example owner_deletes :
  delete_button "user-7" true
    (sample_record "X" "open" "user-7" 0 "2024-01-01T00:00:00Z")
    (Json (VList [sample_record "W" "open" "user-42" 3 "2023-12-31T00:00:00Z";
                  sample_record "X" "open" "user-7" 0 "2024-01-01T00:00:00Z"]))
  = Ok (Json (VList [sample_record "W" "open" "user-42" 3 "2023-12-31T00:00:00Z"])).
Proof. vm_compute. reflexivity. Qed.

(** * Further properties of the code *)

(** ** Geocoding cache *)

Section GeocodeProperties.

Variable strip : string -> string.

(** X1: an address that has been resolved once is answered from the
    cache from then on: whatever the service would say now, the same
    coordinates come back and the cache stays as it is. *)
Theorem geocode_address_memoized (service service' : string -> option coords)
    (cache cache' : gmap string coords) (address : string) (c : coords) :
  geocode_address strip service cache address = (Some c, cache') ->
  geocode_address strip service' cache' address = (Some c, cache').
Proof.
  unfold geocode_address. destruct (truthy address); [ | discriminate].
  destruct (cache !! strip address) as [c0 | ] eqn:Hhit.
  - intros [= -> <-]. rewrite Hhit. reflexivity.
  - destruct (service (strip address)) as [c1 | ]; [ | discriminate].
    intros [= -> <-]. rewrite lookup_insert_eq. reflexivity.
Qed.

Lemma geocode_address_failure_keeps_cache (service : string -> option coords)
    (cache : gmap string coords) (address : string) :
  fst (geocode_address strip service cache address) = None ->
  snd (geocode_address strip service cache address) = cache.
Proof.
  unfold geocode_address. destruct (truthy address); [ | reflexivity].
  destruct (cache !! strip address); [discriminate | ].
  destruct (service (strip address)); [discriminate | reflexivity].
Qed.

(** X2: [geocode_address] never drops or changes a cached entry; a lookup
    that fails leaves the cache untouched (failures are not remembered),
    and every answer it gives is in the cache afterwards under the
    stripped address. *)
Theorem geocode_address_cache_grows (service : string -> option coords)
    (cache : gmap string coords) (address : string) :
  let r := geocode_address strip service cache address in
  cache ⊆ snd r
  /\ (fst r = None -> snd r = cache)
  /\ (forall c : coords, fst r = Some c -> snd r !! strip address = Some c).
Proof.
  unfold geocode_address. destruct (truthy address); simpl;
    [ | split; [reflexivity | split; [reflexivity | discriminate]]].
  destruct (cache !! strip address) as [c0 | ] eqn:Hhit; simpl.
  - split; [reflexivity | split; [discriminate | ]]. intros c [= <-]. exact Hhit.
  - destruct (service (strip address)) as [c1 | ]; simpl.
    + split; [apply insert_subseteq, Hhit | split; [discriminate | ]].
      intros c [= <-]. apply lookup_insert_eq.
    + split; [reflexivity | split; [reflexivity | discriminate]].
Qed.

End GeocodeProperties.

(** ** Session identity and categories *)

(** X3: once [ensure_user_id] has run, the session holds the identifier
    it returned, and every later call returns that same identifier and
    leaves the session alone, whatever the generator would produce. *)
Theorem ensure_user_id_stable (fresh fresh' : string) (session : option string) :
  let r := ensure_user_id fresh session in
  snd r = Some (fst r)
  /\ ensure_user_id fresh' (snd r) = r
  /\ (forall u : string, session = Some u -> r = (u, session)).
Proof.
  destruct session as [u | ]; simpl; repeat split; try reflexivity.
  - intros u' [= ->]. reflexivity.
  - discriminate.
Qed.

Lemma py_eq_str_l (s : string) (v : value) : py_eq (VStr s) v = true <-> v = VStr s.
Proof.
  destruct v as [ | b | z | f | t | l | d]; simpl;
    try (split; [discriminate | congruence]).
  rewrite bool_decide_eq_true. split; congruence.
Qed.

Lemma first_category_found (wanted : value) (cs : list category) (c : category) :
  first_category wanted cs = Some c -> c ∈ cs /\ wanted = VStr (cat_id c).
Proof.
  induction cs as [ | c0 cs IH]; [discriminate | ].
  cbn [first_category].
  destruct (py_eq (VStr (cat_id c0)) wanted) eqn:Heq.
  - intros Hc. injection Hc as Hc. subst c0.
    split; [apply list_elem_of_here | apply py_eq_str_l, Heq].
  - intros H. destruct (IH H) as [Hin Hw].
    split; [apply list_elem_of_further, Hin | exact Hw].
Qed.

Lemma first_category_none (wanted : value) (cs : list category) :
  first_category wanted cs = None -> forall c, c ∈ cs -> wanted <> VStr (cat_id c).
Proof.
  induction cs as [ | c0 cs IH]; cbn [first_category]; intros Hnone c Hin.
  - apply elem_of_nil in Hin. contradiction.
  - destruct (py_eq (VStr (cat_id c0)) wanted) eqn:Heq; [discriminate | ].
    apply elem_of_cons in Hin as [-> | Hin]; [ | apply IH; assumption].
    intros Hw. apply py_eq_str_l in Hw. congruence.
Qed.

(** X4: [category_meta] always answers with an entry of [CATEGORIES]: the
    entry that carries the wanted id when there is one, and the last
    entry, "Other", for anything else (an unknown id, [None], a value
    that is not a string). *)
Theorem category_meta_falls_back_to_other (wanted : value) :
  exists c : category,
    category_meta wanted = Some c
    /\ c ∈ CATEGORIES
    /\ (forall c' : category, c' ∈ CATEGORIES -> wanted = VStr (cat_id c') -> c = c')
    /\ ((forall c' : category, c' ∈ CATEGORIES -> wanted <> VStr (cat_id c')) ->
        cat_id c = "other"%string /\ label c = "Other"%string).
Proof.
  unfold category_meta.
  destruct (first_category wanted CATEGORIES) as [c | ] eqn:Hfind.
  - exists c. destruct (first_category_found _ _ _ Hfind) as [Hin Hw].
    split; [reflexivity | split; [exact Hin | split]].
    + intros c' Hin' Hw'. rewrite Hw in Hw'. injection Hw' as Hid.
      unfold CATEGORIES in Hin, Hin'.
      repeat (apply elem_of_cons in Hin as [-> | Hin]);
        try (apply elem_of_nil in Hin; contradiction);
        repeat (apply elem_of_cons in Hin' as [-> | Hin']);
        try (apply elem_of_nil in Hin'; contradiction);
        try reflexivity; discriminate.
    + intros Hnone. exfalso. exact (Hnone c Hin Hw).
  - eexists. split; [reflexivity | split; [ | split]].
    + unfold CATEGORIES. do 5 apply list_elem_of_further. apply list_elem_of_here.
    + intros c' Hin' Hw'. exfalso.
      exact (first_category_none _ _ Hfind c' Hin' Hw').
    + intros _. split; reflexivity.
Qed.

(** ** The stored collection under mutation *)

Lemma patch_first_body_raises (issue_id : value) (body : value -> result value)
    (data : list value) (i : nat) (it v : value) (e : exn) :
  data !! i = Some it ->
  forallb (other_id issue_id) (take i data) = true ->
  getitem it "id" = Ok v ->
  py_eq v issue_id = true ->
  body it = Raise e ->
  patch_first issue_id body data = Raise e.
Proof.
  revert i. induction data as [ | x rest IH]; intros i Hi Hbefore Hid Heq Hbody.
  - discriminate.
  - destruct i as [ | i]; simpl in *.
    + injection Hi as ->. rewrite Hid. simpl. rewrite Heq, Hbody. reflexivity.
    + apply andb_prop in Hbefore as [Hx Hrest]. unfold other_id in Hx.
      destruct (getitem x "id") as [w | ?]; [ | discriminate]. simpl.
      apply negb_true_iff in Hx. rewrite Hx.
      rewrite (IH i Hi Hrest Hid Heq Hbody). reflexivity.
Qed.

Lemma patch_first_unreadable_id (issue_id : value) (body : value -> result value)
    (data : list value) (j : nat) (x : value) (e : exn) :
  data !! j = Some x ->
  forallb (other_id issue_id) (take j data) = true ->
  getitem x "id" = Raise e ->
  patch_first issue_id body data = Raise e.
Proof.
  revert j. induction data as [ | y rest IH]; intros j Hj Hbefore Hid.
  - discriminate.
  - destruct j as [ | j]; simpl in *.
    + injection Hj as ->. rewrite Hid. reflexivity.
    + apply andb_prop in Hbefore as [Hy Hrest]. unfold other_id in Hy.
      destruct (getitem y "id") as [w | ?]; [ | discriminate]. simpl.
      apply negb_true_iff in Hy. rewrite Hy.
      rewrite (IH j Hj Hrest Hid). reflexivity.
Qed.

Lemma patch_first_keeps_ids (issue_id : value) (body : value -> result value)
    (data data' : list value) :
  (forall it it', body it = Ok it' -> getitem it' "id" = getitem it "id") ->
  patch_first issue_id body data = Ok data' ->
  Forall2 (fun x y => getitem y "id" = getitem x "id") data data'.
Proof.
  intros Hbody. revert data'.
  induction data as [ | x rest IH]; intros data'; simpl.
  - intros [= <-]. constructor.
  - destruct (getitem x "id") as [v | ?]; [ | discriminate]. simpl.
    destruct (py_eq v issue_id).
    + destruct (body x) as [x' | ?] eqn:Hx; [ | discriminate]. simpl.
      intros [= <-]. constructor; [apply Hbody, Hx | ].
      clear. induction rest; constructor; auto.
    + destruct (patch_first issue_id body rest) as [rest' | ?]; [ | discriminate].
      simpl. intros [= <-]. constructor; [reflexivity | apply IH; reflexivity].
Qed.

Lemma add_update_body_keeps_id (now_ms : Z) (text : string) (status : option string)
    (it it' : value) :
  add_update_body now_ms text status it = Ok it' ->
  getitem it' "id" = getitem it "id".
Proof.
  destruct it as [ | | | | | | d]; try discriminate.
  unfold add_update_body. simpl.
  destruct (status_or_current status (VDict d)) as [st | ?]; [ | discriminate]. simpl.
  destruct (append _ _) as [ups | ?]; [ | discriminate]. simpl.
  destruct status as [s | ]; [destruct (truthy s) | ]; simpl; intros [= <-]; simpl;
    rewrite ?lookup_insert_ne by discriminate; reflexivity.
Qed.

(** X5: reports filed one after another are stored in the order they were
    filed, after everything that was there: starting from any file that
    loads as a list (also a missing one, or one whose text is not JSON),
    the file left by the calls loads as the old list followed by the new
    records. *)
Theorem add_in_turn_appends_in_order (issues data : list value) (db : db_file) :
  load_data db = Ok (VList data) ->
  exists db' : db_file,
    add_in_turn issues db = Ok db'
    /\ load_data db' = Ok (VList (data ++ issues)).
Proof.
  revert data db. induction issues as [ | issue rest IH]; intros data db Hload.
  - exists db. rewrite app_nil_r. split; [reflexivity | exact Hload].
  - simpl. unfold add_issue. rewrite Hload. simpl.
    destruct (IH (data ++ [issue]) (save_data (VList (data ++ [issue]))) eq_refl)
      as (db' & Hrun & Hload').
    exists db'. split; [exact Hrun | ].
    rewrite Hload', <- app_assoc. reflexivity.
Qed.

Lemma update_issue_hit (patch : gmap string value) (data : list value)
    (i : nat) (d : gmap string value) (s : string) :
  data !! i = Some (VDict d) ->
  d !! "id"%string = Some (VStr s) ->
  forallb (other_id (VStr s)) (take i data) = true ->
  update_issue (VStr s) patch (Json (VList data))
  = Ok (Json (VList (<[i := VDict (patch ∪ d)]> data))).
Proof.
  intros Hi Hid Hbefore. unfold update_issue. simpl.
  erewrite patch_first_hit;
    [reflexivity | exact Hi | exact Hbefore | simpl; rewrite Hid; reflexivity
    | apply py_eq_str; reflexivity | reflexivity].
Qed.

(** X6: [update_issue] overlays the patch on the first record that
    carries the id: a key of the patch gets the patch's value, every
    other key of the record keeps its value, and every other record is
    saved as it was. *)
Theorem update_issue_overlays_patch (patch : gmap string value) (data : list value)
    (i : nat) (d : gmap string value) (s : string) :
  data !! i = Some (VDict d) ->
  d !! "id"%string = Some (VStr s) ->
  forallb (other_id (VStr s)) (take i data) = true ->
  let data' := <[i := VDict (patch ∪ d)]> data in
  update_issue (VStr s) patch (Json (VList data)) = Ok (Json (VList data'))
  /\ (forall (k : string) (v : value), patch !! k = Some v -> (patch ∪ d) !! k = Some v)
  /\ (forall k : string, patch !! k = None -> (patch ∪ d) !! k = d !! k)
  /\ (forall j : nat, j <> i -> data' !! j = data !! j).
Proof.
  intros Hi Hid Hbefore data'. subst data'. split; [ | split; [ | split]].
  - apply update_issue_hit; assumption.
  - intros k v Hk. apply lookup_union_Some_l, Hk.
  - intros k Hk. apply lookup_union_r, Hk.
  - intros j Hj. apply list_lookup_insert_ne. congruence.
Qed.

(** X7: a record whose ["updates"] field holds something that is not a
    list (for instance [null]) cannot take an update: [add_update] raises
    [AttributeError] and saves nothing. *)
Theorem add_update_needs_a_list (now_ms : Z) (text : string) (status : option string)
    (data : list value) (i : nat) (d : gmap string value) (s : string) (v : value) :
  data !! i = Some (VDict d) ->
  d !! "id"%string = Some (VStr s) ->
  forallb (other_id (VStr s)) (take i data) = true ->
  d !! "updates"%string = Some v ->
  (forall l : list value, v <> VList l) ->
  add_update now_ms (VStr s) text status (Json (VList data)) = Raise AttributeError.
Proof.
  intros Hi Hid Hbefore Hups Hnot. unfold add_update. simpl.
  erewrite patch_first_body_raises;
    [reflexivity | exact Hi | exact Hbefore | simpl; rewrite Hid; reflexivity
    | apply py_eq_str; reflexivity | ].
  unfold add_update_body. simpl. rewrite Hups. simpl.
  destruct (status_or_current status (VDict d)) as [st | ?] eqn:Hst.
  - simpl. destruct v; try reflexivity. exfalso. eapply Hnot. reflexivity.
  - destruct status as [s' | ]; [destruct (truthy s') eqn:Ht | ];
      unfold status_or_current in Hst; rewrite ?Ht in Hst; discriminate.
Qed.

Section StoreProperties.

Variable int_of_str : string -> option Z.

Lemma upvote_body_keeps_id (it it' : value) :
  upvote_body int_of_str it = Ok it' -> getitem it' "id" = getitem it "id".
Proof.
  destruct it as [ | | | | | | d]; try discriminate.
  unfold upvote_body. simpl.
  destruct (py_int int_of_str _) as [n | ?]; [ | discriminate]. simpl.
  intros [= <-]. simpl. rewrite lookup_insert_ne by discriminate. reflexivity.
Qed.

(** X8: an upvote or an update never adds, drops or moves a record and
    never touches an id: whenever the call returns, the saved list is as
    long as the loaded one and carries the same ids in the same
    places. *)
Theorem mutation_keeps_ids (db db' : db_file) (data : list value) (issue_id : value)
    (now_ms : Z) (text : string) (status : option string) :
  load_data db = Ok (VList data) ->
  upvote_issue int_of_str issue_id db = Ok db'
  \/ add_update now_ms issue_id text status db = Ok db' ->
  exists data' : list value,
    load_data db' = Ok (VList data')
    /\ length data' = length data
    /\ Forall2 (fun x y => getitem y "id" = getitem x "id") data data'.
Proof.
  intros Hload Hrun. unfold upvote_issue, add_update in Hrun.
  rewrite Hload in Hrun. simpl in Hrun.
  destruct Hrun as [Hrun | Hrun].
  - destruct (patch_first issue_id (upvote_body int_of_str) data) as [data' | ?] eqn:Hp;
      [ | discriminate].
    simpl in Hrun. injection Hrun as <-. exists data'.
    pose proof (patch_first_keeps_ids _ _ _ _ upvote_body_keeps_id Hp) as Hids.
    split; [reflexivity | split; [ | exact Hids]].
    symmetry. eapply Forall2_length, Hids.
  - destruct (patch_first issue_id (add_update_body now_ms text status) data)
      as [data' | ?] eqn:Hp; [ | discriminate].
    simpl in Hrun. injection Hrun as <-. exists data'.
    pose proof (patch_first_keeps_ids _ _ _ _
                  (add_update_body_keeps_id now_ms text status) Hp) as Hids.
    split; [reflexivity | split; [ | exact Hids]].
    symmetry. eapply Forall2_length, Hids.
Qed.

Lemma upvote_issue_hit_int (data : list value) (i : nat)
    (d : gmap string value) (s : string) (n : Z) :
  data !! i = Some (VDict d) ->
  d !! "id"%string = Some (VStr s) ->
  forallb (other_id (VStr s)) (take i data) = true ->
  py_int int_of_str (default (VInt 0) (d !! "votes"%string)) = Ok n ->
  upvote_issue int_of_str (VStr s) (Json (VList data))
  = Ok (Json (VList (<[i := VDict (<["votes"%string := VInt (n + 1)]> d)]> data))).
Proof.
  intros Hi Hid Hbefore Hint. unfold upvote_issue. simpl.
  erewrite patch_first_hit;
    [reflexivity | exact Hi | exact Hbefore | simpl; rewrite Hid; reflexivity
    | apply py_eq_str; reflexivity | ].
  unfold upvote_body. simpl. rewrite Hint. reflexivity.
Qed.

(** X9: whatever number the votes field held, it holds an integer after
    an upvote: [int()] of the old value, plus one.  A missing field counts
    as 0, a float is cut toward zero first, [true] counts as 1. *)
Theorem upvote_stores_an_integer (data : list value) (i : nat)
    (d : gmap string value) (s : string) (n : Z) :
  data !! i = Some (VDict d) ->
  d !! "id"%string = Some (VStr s) ->
  forallb (other_id (VStr s)) (take i data) = true ->
  py_int int_of_str (default (VInt 0) (d !! "votes"%string)) = Ok n ->
  let d' := <["votes"%string := VInt (n + 1)]> d in
  upvote_issue int_of_str (VStr s) (Json (VList data))
    = Ok (Json (VList (<[i := VDict d']> data)))
  /\ d' !! "votes"%string = Some (VInt (n + 1))
  /\ (d !! "votes"%string = None -> n = 0)
  /\ (forall k : string, k <> "votes"%string -> d' !! k = d !! k).
Proof.
  intros Hi Hid Hbefore Hint d'. subst d'. split; [ | split; [ | split]].
  - apply upvote_issue_hit_int; assumption.
  - apply lookup_insert_eq.
  - intros Hnone. rewrite Hnone in Hint. simpl in Hint. congruence.
  - intros k Hk. apply lookup_insert_ne. congruence.
Qed.

(** X10: when [int()] rejects the votes field ([None], a list, a string
    that is no number, an infinite or NaN float), the upvote raises that
    error and saves nothing. *)
Theorem upvote_rejects_bad_votes (data : list value) (i : nat)
    (d : gmap string value) (s : string) (e : exn) :
  data !! i = Some (VDict d) ->
  d !! "id"%string = Some (VStr s) ->
  forallb (other_id (VStr s)) (take i data) = true ->
  py_int int_of_str (default (VInt 0) (d !! "votes"%string)) = Raise e ->
  upvote_issue int_of_str (VStr s) (Json (VList data)) = Raise e.
Proof.
  intros Hi Hid Hbefore Hint. unfold upvote_issue. simpl.
  erewrite patch_first_body_raises;
    [reflexivity | exact Hi | exact Hbefore | simpl; rewrite Hid; reflexivity
    | apply py_eq_str; reflexivity | ].
  unfold upvote_body. simpl. rewrite Hint. reflexivity.
Qed.

(** X11: the loops read ["id"] of every item they pass.  If an item that
    comes before any record with the wanted id has no readable id (a
    record without the key: [KeyError]; an item that is not an object:
    [TypeError]), then upvote, update and patch all raise that error and
    save nothing, even when the wanted record is further down. *)
Theorem unreadable_id_stops_every_mutation (data : list value) (j : nat) (x : value)
    (e : exn) (issue_id : value) (now_ms : Z) (text : string)
    (status : option string) (patch : gmap string value) :
  data !! j = Some x ->
  forallb (other_id issue_id) (take j data) = true ->
  getitem x "id" = Raise e ->
  upvote_issue int_of_str issue_id (Json (VList data)) = Raise e
  /\ add_update now_ms issue_id text status (Json (VList data)) = Raise e
  /\ update_issue issue_id patch (Json (VList data)) = Raise e.
Proof.
  intros Hj Hbefore Hid. unfold upvote_issue, add_update, update_issue. simpl.
  rewrite !(patch_first_unreadable_id issue_id _ data j x e Hj Hbefore Hid).
  repeat split; reflexivity.
Qed.

End StoreProperties.

(** ** How the operations compose *)

Lemma filter_all {A : Type} (f : A -> bool) (l : list A) :
  forallb f l = true -> List.filter f l = l.
Proof.
  induction l as [ | x l IH]; simpl; [reflexivity | ].
  intros [Hx Hl]%andb_prop. rewrite Hx, (IH Hl). reflexivity.
Qed.

Section Composition.

Variable int_of_str : string -> option Z.
Variable strip : string -> string.

Lemma both_orders (now_ms : Z) (text : string) (status : option string)
    (data : list value) (i : nat) (d d' : gmap string value) (s : string) (n : Z) :
  data !! i = Some (VDict d) ->
  d !! "id"%string = Some (VStr s) ->
  forallb (other_id (VStr s)) (take i data) = true ->
  py_int int_of_str (default (VInt 0) (d !! "votes"%string)) = Ok n ->
  add_update_body now_ms text status (VDict d) = Ok (VDict d') ->
  add_update_body now_ms text status (VDict (<["votes"%string := VInt (n + 1)]> d))
    = Ok (VDict (<["votes"%string := VInt (n + 1)]> d')) ->
  d' !! "id"%string = d !! "id"%string ->
  d' !! "votes"%string = d !! "votes"%string ->
  let saved := Json (VList (<[i := VDict (<["votes"%string := VInt (n + 1)]> d')]> data)) in
  (db1 ← upvote_issue int_of_str (VStr s) (Json (VList data));
   add_update now_ms (VStr s) text status db1) = Ok saved
  /\ (db1 ← add_update now_ms (VStr s) text status (Json (VList data));
      upvote_issue int_of_str (VStr s) db1) = Ok saved.
Proof.
  intros Hi Hid Hbefore Hint Hbody Hbody' Hid' Hvotes saved. subst saved.
  assert (Hlen : (i < length data)%nat) by (eapply lookup_lt_Some; eassumption).
  rewrite (upvote_issue_hit_int int_of_str data i d s n Hi Hid Hbefore Hint).
  rewrite (add_update_hit now_ms text status data i d s _ Hi Hid Hbefore Hbody).
  cbn [mbind result_bind]. split.
  - rewrite (add_update_hit now_ms text status _ i
               (<["votes"%string := VInt (n + 1)]> d) s
               (VDict (<["votes"%string := VInt (n + 1)]> d'))).
    + rewrite list_insert_insert_eq. reflexivity.
    + apply list_lookup_insert_eq, Hlen.
    + rewrite lookup_insert_ne by discriminate. exact Hid.
    + rewrite take_insert_ge by lia. exact Hbefore.
    + exact Hbody'.
  - rewrite (upvote_issue_hit_int int_of_str _ i d' s n).
    + rewrite list_insert_insert_eq. reflexivity.
    + apply list_lookup_insert_eq, Hlen.
    + rewrite Hid'. exact Hid.
    + rewrite take_insert_ge by lia. exact Hbefore.
    + rewrite Hvotes. exact Hint.
Qed.

(** X12: an upvote and an update of the same record can be made in
    either order: both orders succeed and save the same collection, since
    one writes ["votes"] and the other ["updates"] and ["status"]. *)
Theorem upvote_and_update_commute (now_ms : Z) (text : string) (status : option string)
    (data : list value) (i : nat) (d : gmap string value) (s : string)
    (n : Z) (us : list value) :
  data !! i = Some (VDict d) ->
  d !! "id"%string = Some (VStr s) ->
  forallb (other_id (VStr s)) (take i data) = true ->
  py_int int_of_str (default (VInt 0) (d !! "votes"%string)) = Ok n ->
  default (VList []) (d !! "updates"%string) = VList us ->
  exists db' : db_file,
    (db1 ← upvote_issue int_of_str (VStr s) (Json (VList data));
     add_update now_ms (VStr s) text status db1) = Ok db'
    /\ (db1 ← add_update now_ms (VStr s) text status (Json (VList data));
        upvote_issue int_of_str (VStr s) db1) = Ok db'.
Proof.
  intros Hi Hid Hbefore Hint Hus.
  assert (Hus' : forall v, default (VList []) (<["votes"%string := v]> d !! "updates"%string)
                           = VList us).
  { intros v. rewrite lookup_insert_ne by discriminate. exact Hus. }
  assert (Hcases : (exists s', status = Some s' /\ s' <> ""%string)
                   \/ status = None \/ status = Some ""%string).
  { destruct status as [s' | ]; [ | right; left; reflexivity].
    destruct (decide (s' = ""%string)) as [-> | Hne];
      [right; right; reflexivity | left; eauto]. }
  destruct Hcases as [(s' & -> & Hne) | Hom].
  - eexists. eapply both_orders; try eassumption.
    + apply add_update_body_given; eassumption.
    + rewrite (add_update_body_given _ _ _ _ us (Hus' _) Hne).
      rewrite (insert_insert_ne _ "updates"%string "votes"%string) by discriminate.
      rewrite (insert_insert_ne _ "status"%string "votes"%string) by discriminate.
      reflexivity.
    + rewrite !lookup_insert_ne by discriminate. reflexivity.
    + rewrite !lookup_insert_ne by discriminate. reflexivity.
  - eexists. eapply both_orders; try eassumption.
    + apply add_update_body_omitted; eassumption.
    + rewrite (add_update_body_omitted _ _ _ _ us (Hus' _) Hom).
      rewrite (lookup_insert_ne _ "votes"%string "status"%string) by discriminate.
      rewrite (insert_insert_ne _ "updates"%string "votes"%string) by discriminate.
      reflexivity.
    + rewrite !lookup_insert_ne by discriminate. reflexivity.
    + rewrite !lookup_insert_ne by discriminate. reflexivity.
Qed.

(** X13: filing a report and then deleting it from the same session gives
    back the collection that was there before, provided the new id is
    not the id of a stored record. *)
Theorem owner_delete_undoes_create (e : env) (user_id title description category : string)
    (lat lng : spec_float) (address : string) (image_file : option upload)
    (w : world) (data : list value) :
  strip title <> ""%string ->
  strip description <> ""%string ->
  load_data (db w) = Ok (VList data) ->
  forallb (other_id (VStr (uuid4 e))) data = true ->
  exists (p : value) (w' : world),
    submit_report strip e user_id title description category lat lng address
      image_file w
    = (IssueSubmitted p, w')
    /\ delete_button user_id true p (db w') = Ok (Json (VList data)).
Proof.
  intros Ht Hd Hload Hfresh. unfold submit_report, truthy.
  rewrite !bool_decide_eq_false_2 by assumption. simpl.
  destruct (if _ && _ then geocode_address strip _ _ _ else (None, _))
    as [geo cache'].
  destruct (match geo with Some g => g | None => (lat, lng) end)
    as [chosen_lat chosen_lng].
  unfold new_issue_payload.
  destruct (match image_file with Some f => _ | None => (VNone, uploads w) end)
    as [image_path files'].
  unfold add_issue. rewrite Hload. simpl.
  eexists _, _. split; [reflexivity | ].
  match goal with
  | |- delete_button _ _ (VDict ?m) _ = _ =>
      pose proof (eq_refl : m !! "created_by"%string = Some (VStr user_id)) as Hown;
      pose proof (eq_refl : m !! "id"%string = Some (VStr (uuid4 e))) as Hpid;
      remember m as p eqn:Hp; clear Hp
  end.
  unfold delete_button. cbn [get mbind result_bind]. rewrite Hown. simpl.
  rewrite bool_decide_eq_true_2 by reflexivity.
  rewrite (drop_id_filter p (uuid4 e) _ Hpid).
  - cbn [mbind result_bind]. rewrite List.filter_app, (filter_all _ _ Hfresh).
    cbn [List.filter]. rewrite (other_id_dict _ _ _ Hpid). simpl.
    rewrite bool_decide_eq_true_2 by reflexivity. simpl.
    rewrite app_nil_r. reflexivity.
  - rewrite forallb_app. apply andb_true_intro. split.
    + clear -Hfresh. induction data as [ | x rest IH]; [reflexivity | ].
      simpl in *. apply andb_prop in Hfresh as [Hx Hrest].
      rewrite (IH Hrest), andb_true_r. unfold other_id in Hx. unfold readable_id.
      destruct (getitem x "id"); [reflexivity | discriminate].
    + cbn [forallb]. unfold readable_id. cbn [getitem]. rewrite Hpid. reflexivity.
Qed.

End Composition.

(** ** More on filtering *)

Section FilterProperties.

Variable str_of : value -> string.
Variable lower : string -> string.

Lemma matches_raises_attribute_error (cat stt q : string) (only_mine : bool)
    (user_id : string) (it : value) (e : exn) :
  matches str_of lower cat stt q only_mine user_id it = Raise e -> e = AttributeError.
Proof.
  destruct it as [ | b | z | f | t | l | d];
    try (unfold matches; simpl;
         destruct (bool_decide (cat = "all"%string)),
           (bool_decide (stt = "all"%string)), only_mine, (truthy q);
         simpl; congruence).
  rewrite matches_dict. discriminate.
Qed.

Lemma matches_not_a_dict (cat stt q : string) (only_mine : bool)
    (user_id : string) (it : value) :
  cat <> "all"%string ->
  (forall d, it <> VDict d) ->
  matches str_of lower cat stt q only_mine user_id it = Raise AttributeError.
Proof.
  intros Hcat Hnot. unfold matches.
  rewrite (bool_decide_eq_false_2 (cat = "all"%string)) by assumption.
  destruct it; try reflexivity. exfalso. eapply Hnot. reflexivity.
Qed.

Lemma select_sublist (cat stt q : string) (only_mine : bool) (user_id : string)
    (items out : list value) :
  select str_of lower cat stt q only_mine user_id items = Ok out ->
  sublist out items.
Proof.
  revert out. induction items as [ | it rest IH]; intros out; simpl.
  - intros [= <-]. constructor.
  - destruct (matches _ _ _ _ _ _ _ it) as [keep | ?]; [ | discriminate]. simpl.
    destruct (select _ _ _ _ _ _ _ rest) as [rest' | ?]; [ | discriminate]. simpl.
    intros [= <-]. destruct keep; [apply sublist_skip | apply sublist_cons]; auto.
Qed.

Lemma select_kept (cat stt q : string) (only_mine : bool) (user_id : string)
    (items out : list value) :
  select str_of lower cat stt q only_mine user_id items = Ok out ->
  Forall (fun it => matches str_of lower cat stt q only_mine user_id it = Ok true) out.
Proof.
  revert out. induction items as [ | it rest IH]; intros out; simpl.
  - intros [= <-]. constructor.
  - destruct (matches _ _ _ _ _ _ _ it) as [keep | ?] eqn:Hm; [ | discriminate]. simpl.
    destruct (select _ _ _ _ _ _ _ rest) as [rest' | ?]; [ | discriminate]. simpl.
    intros [= <-]. destruct keep; [constructor | ]; auto.
Qed.

Lemma select_all_kept (cat stt q : string) (only_mine : bool) (user_id : string)
    (items : list value) :
  Forall (fun it => matches str_of lower cat stt q only_mine user_id it = Ok true) items ->
  select str_of lower cat stt q only_mine user_id items = Ok items.
Proof.
  induction 1 as [ | it rest Hit _ IH]; simpl; [reflexivity | ].
  rewrite Hit, IH. reflexivity.
Qed.

(** X14: with nothing chosen in the sidebar (category "all", status
    "all", no search text, "only mine" off) the filter returns the loaded
    list as it is, whatever the items are. *)
Theorem no_criteria_keeps_everything (user_id : string) (items : list value) :
  filtered str_of lower "all" "all" "" false user_id (VList items) = Ok items.
Proof.
  unfold filtered. simpl. apply select_all_kept.
  induction items; constructor; auto.
Qed.

(** X15: the filter only leaves records out: what it returns is the
    loaded list with some items removed, the others in their stored
    order. *)
Theorem filtered_is_a_sublist (cat stt q : string) (only_mine : bool)
    (user_id : string) (items out : list value) :
  filtered str_of lower cat stt q only_mine user_id (VList items) = Ok out ->
  sublist out items.
Proof. unfold filtered. simpl. apply select_sublist. Qed.

(** X16: filtering the filtered list again with the same choices changes
    nothing. *)
Theorem filtered_twice (cat stt q : string) (only_mine : bool)
    (user_id : string) (items out : list value) :
  filtered str_of lower cat stt q only_mine user_id (VList items) = Ok out ->
  filtered str_of lower cat stt q only_mine user_id (VList out) = Ok out.
Proof.
  unfold filtered. simpl. intros H. apply select_all_kept. eapply select_kept, H.
Qed.

(** X17: as soon as a category is chosen, one stored item that is not an
    object (a number, a string, [null], a list) makes the whole filter
    raise [AttributeError]: no list is produced. *)
Theorem filter_stops_on_a_non_object (cat stt q : string) (only_mine : bool)
    (user_id : string) (items : list value) (x : value) :
  cat <> "all"%string ->
  x ∈ items ->
  (forall d, x <> VDict d) ->
  filtered str_of lower cat stt q only_mine user_id (VList items) = Raise AttributeError.
Proof.
  intros Hcat Hin Hnot. unfold filtered. simpl.
  induction items as [ | it rest IH]; [apply elem_of_nil in Hin; contradiction | ].
  simpl. destruct (matches _ _ _ _ _ _ _ it) as [keep | e] eqn:Hm.
  - simpl. apply elem_of_cons in Hin as [-> | Hin].
    + rewrite (matches_not_a_dict _ _ _ _ _ _ Hcat Hnot) in Hm. discriminate.
    + rewrite (IH Hin). reflexivity.
  - simpl. f_equal. eapply matches_raises_attribute_error, Hm.
Qed.

End FilterProperties.

(** ** More on the display order *)

Lemma with_key_keyed (items : list value) (keyed : list (display_key * value)) :
  mapM with_key items = Some keyed ->
  map snd keyed = items
  /\ Forall (fun kx => sort_key (snd kx) = Some (fst kx)) keyed.
Proof.
  intros H. apply mapM_Some_1 in H.
  induction H as [ | x kx items keyed Hx _ [IH1 IH2]]; [split; [reflexivity | constructor] | ].
  unfold with_key in Hx. destruct (sort_key x) as [k | ] eqn:Hk; [ | discriminate].
  simpl in Hx. injection Hx as <-. split.
  - simpl. rewrite IH1. reflexivity.
  - constructor; assumption.
Qed.

Lemma keyed_with_key (keyed : list (display_key * value)) :
  Forall (fun kx => sort_key (snd kx) = Some (fst kx)) keyed ->
  mapM with_key (map snd keyed) = Some keyed.
Proof.
  induction 1 as [ | [k x] keyed Hkx _ IH]; [reflexivity | ].
  simpl in Hkx. cbn [map snd mapM]. rewrite IH.
  unfold with_key. rewrite Hkx. reflexivity.
Qed.

Lemma sort_keyed_fixed (l : list (display_key * value)) :
  StronglySorted may_precede l -> sort_keyed l = l.
Proof.
  induction 1 as [ | x l Hl IH Hx]; [reflexivity | ].
  simpl. rewrite IH. destruct l as [ | y l']; [reflexivity | ].
  simpl. apply Forall_cons in Hx as [Hxy _]. unfold may_precede in Hxy.
  rewrite Hxy. reflexivity.
Qed.

Lemma filter_keyed (k : display_key) (l : list (display_key * value)) :
  Forall (fun kx => sort_key (snd kx) = Some (fst kx)) l ->
  List.filter (fun x => bool_decide (sort_key x = Some k)) (map snd l)
  = map snd (List.filter (fun y => bool_decide (fst y = k)) l).
Proof.
  induction 1 as [ | [k' x] l Hkx _ IH]; [reflexivity | ].
  simpl in *. rewrite Hkx, IH.
  destruct (decide (k' = k)) as [-> | Hne].
  - rewrite !bool_decide_eq_true_2 by reflexivity. reflexivity.
  - rewrite !bool_decide_eq_false_2 by congruence. reflexivity.
Qed.

(** X18: the display order is stable: records that have the same sort key
    (same side of the open/not-open split, same votes, same creation
    stamp) are shown in the order the filter delivered them. *)
Theorem display_order_is_stable (items out : list value) (k : display_key) :
  display_order items = Some out ->
  List.filter (fun x => bool_decide (sort_key x = Some k)) out
  = List.filter (fun x => bool_decide (sort_key x = Some k)) items.
Proof.
  unfold display_order. destruct (mapM with_key items) as [keyed | ] eqn:Hm; [ | discriminate].
  simpl. intros [= <-]. destruct (with_key_keyed _ _ Hm) as [Hitems Hall].
  rewrite <- Hitems. rewrite !filter_keyed.
  - rewrite sort_keyed_stable. reflexivity.
  - exact Hall.
  - rewrite Forall_forall in Hall. rewrite Forall_forall. intros z Hz.
    apply Hall. rewrite sort_keyed_perm in Hz. exact Hz.
Qed.

(** X19: ordering a list that is already in display order leaves it as it
    is. *)
Theorem display_order_twice (items out : list value) :
  display_order items = Some out ->
  display_order out = Some out.
Proof.
  unfold display_order. destruct (mapM with_key items) as [keyed | ] eqn:Hm; [ | discriminate].
  simpl. intros [= <-]. destruct (with_key_keyed _ _ Hm) as [_ Hall].
  rewrite keyed_with_key.
  - simpl. rewrite (sort_keyed_fixed _ (sort_keyed_sorted keyed)). reflexivity.
  - rewrite Forall_forall in Hall. rewrite Forall_forall. intros z Hz.
    apply Hall. rewrite sort_keyed_perm in Hz. exact Hz.
Qed.

(** ** Coordinate back-fill *)

Section BackfillProperties.

Variable strip : string -> string.

(** X20: the back-fill writes nothing unless a lookup succeeds.  A row
    that has both coordinates (neither [None] nor 0), a row without a
    usable address, and a row whose address the geocoder cannot resolve
    are all left as they are, and so are the stored file and the
    cache. *)
Theorem backfill_leaves_alone (service : string -> option coords)
    (d : gmap string value) (db : db_file) (cache : gmap string coords) :
  (in_none_or_zero (default VNone (d !! "lat"%string)) = false
   /\ in_none_or_zero (default VNone (d !! "lng"%string)) = false)
  \/ py_truthy (default VNone (d !! "address"%string)) = false
  \/ (exists a : string,
        d !! "address"%string = Some (VStr a)
        /\ fst (geocode_address strip service cache a) = None) ->
  backfill_row strip service (VDict d) db cache = Ok (VDict d, db, cache).
Proof.
  intros H. unfold backfill_row. cbn [get mbind result_bind].
  destruct H as [[Hlat Hlng] | [Haddr | (a & Ha & Hgeo)]].
  - rewrite Hlat. cbn [mbind result_bind]. rewrite Hlng. reflexivity.
  - rewrite Haddr.
    destruct (in_none_or_zero (default VNone (d !! "lat"%string)));
      cbn [mbind result_bind];
      [ | destruct (in_none_or_zero (default VNone (d !! "lng"%string)))];
      reflexivity.
  - rewrite Ha. cbn [default from_option id geocode_value].
    pose proof (geocode_address_failure_keeps_cache strip service cache a Hgeo) as Hsame.
    destruct (geocode_address strip service cache a) as [geo cache'].
    simpl in Hgeo, Hsame. subst geo cache'.
    destruct (in_none_or_zero (default VNone (d !! "lat"%string)));
      cbn [mbind result_bind];
      [ | destruct (in_none_or_zero (default VNone (d !! "lng"%string)))];
      destruct (py_truthy (VStr a)); reflexivity.
Qed.

(** X21: a row that lacks a coordinate ([None] or 0 for latitude or
    longitude) and has an address the geocoder resolves gets both
    coordinates, in the row on display and in the first stored record
    with its id; that record's other fields, and the other records, are
    saved as they were.  A coordinate that is exactly 0 counts as
    lacking. *)
Theorem backfill_sets_both_coordinates (service : string -> option coords)
    (d d0 : gmap string value) (data : list value) (i : nat) (s a : string)
    (la ln : spec_float) (cache cache' : gmap string coords) :
  in_none_or_zero (default VNone (d !! "lat"%string)) = true
  \/ in_none_or_zero (default VNone (d !! "lng"%string)) = true ->
  d !! "address"%string = Some (VStr a) ->
  geocode_address strip service cache a = (Some (la, ln), cache') ->
  d !! "id"%string = Some (VStr s) ->
  data !! i = Some (VDict d0) ->
  d0 !! "id"%string = Some (VStr s) ->
  forallb (other_id (VStr s)) (take i data) = true ->
  let patch : gmap string value :=
    <["lat"%string := VFloat la]> (<["lng"%string := VFloat ln]> ∅) in
  let data' := <[i := VDict (patch ∪ d0)]> data in
  backfill_row strip service (VDict d) (Json (VList data)) cache
  = Ok (VDict (<["lng"%string := VFloat ln]> (<["lat"%string := VFloat la]> d)),
        Json (VList data'), cache')
  /\ (patch ∪ d0) !! "lat"%string = Some (VFloat la)
  /\ (patch ∪ d0) !! "lng"%string = Some (VFloat ln)
  /\ (forall k : string, k <> "lat"%string -> k <> "lng"%string ->
        (patch ∪ d0) !! k = d0 !! k)
  /\ (forall j : nat, j <> i -> data' !! j = data !! j).
Proof.
  intros Hmissing Haddr Hgeo Hid Hi Hid0 Hbefore patch data'.
  assert (Ha : truthy a = true).
  { unfold geocode_address in Hgeo. destruct (truthy a); [reflexivity | discriminate]. }
  split; [ | split; [ | split; [ | split]]].
  - unfold backfill_row. cbn [get mbind result_bind].
    pose proof (update_issue_hit patch data i d0 s Hi Hid0 Hbefore) as Hrun.
    destruct (in_none_or_zero (default VNone (d !! "lat"%string))) eqn:Hlat;
      cbn [mbind result_bind];
      [ | destruct Hmissing as [Hl | Hlng]; [congruence | rewrite Hlng] ];
      (rewrite Haddr; cbn [default from_option id py_truthy geocode_value];
       rewrite Ha, Hgeo; cbn [mbind result_bind setitem getitem];
       rewrite (lookup_insert_ne _ "lng"%string "id"%string) by discriminate;
       rewrite (lookup_insert_ne _ "lat"%string "id"%string) by discriminate;
       rewrite Hid;
       rewrite (lookup_insert_ne _ "lng"%string "lat"%string) by discriminate;
       rewrite !lookup_insert_eq;
       cbn [mbind result_bind]; fold patch; rewrite Hrun; reflexivity).
  - apply lookup_union_Some_l, lookup_insert_eq.
  - apply lookup_union_Some_l. subst patch.
    rewrite lookup_insert_ne by discriminate. apply lookup_insert_eq.
  - intros k Hlat Hlng. apply lookup_union_r.
    subst patch. rewrite !lookup_insert_ne by congruence. apply lookup_empty.
  - intros j Hj. apply list_lookup_insert_ne. congruence.
Qed.

End BackfillProperties.

(** ** More on the report form *)

Section FormProperties.

Variable strip : string -> string.

Lemma submit_report_valid (e : env) (user_id title description category : string)
    (lat lng : spec_float) (address : string) (image_file : option upload)
    (w : world) :
  strip title <> ""%string ->
  strip description <> ""%string ->
  submit_report strip e user_id title description category lat lng address
    image_file w
  = (let '(geo, cache') :=
       if truthy address && truthy (strip address)
       then geocode_address strip (nominatim e) (geocode_cache w) address
       else (None, geocode_cache w) in
     let '(chosen_lat, chosen_lng) :=
       match geo with
       | Some g => g
       | None => (lat, lng)
       end in
     let '(payload, files') :=
       new_issue_payload strip e user_id title description category
         chosen_lat chosen_lng address image_file (uploads w) in
     match add_issue payload (db w) with
     | Ok db' =>
         (IssueSubmitted payload,
          {| db := db'; uploads := files'; geocode_cache := cache' |})
     | Raise x =>
         (Uncaught x,
          {| db := db w; uploads := files'; geocode_cache := cache' |})
     end).
Proof.
  intros Ht Hd. unfold submit_report, truthy at 1 2.
  rewrite !bool_decide_eq_false_2 by assumption. reflexivity.
Qed.

(** X22: when the address can be geocoded, the stored record carries the
    geocoder's coordinates, not the ones picked on the map, and the
    answer enters the cache; when the address is blank or cannot be
    resolved, the record carries the picked coordinates and the cache
    stays as it was. *)
Theorem submit_prefers_geocoded_coordinates (e : env)
    (user_id title description category : string) (lat lng : spec_float)
    (address : string) (image_file : option upload) (w : world)
    (data : list value) :
  strip title <> ""%string ->
  strip description <> ""%string ->
  load_data (db w) = Ok (VList data) ->
  exists (p : gmap string value) (w' : world),
    submit_report strip e user_id title description category lat lng address
      image_file w
    = (IssueSubmitted (VDict p), w')
    /\ (forall (la ln : spec_float) (c' : gmap string coords),
          truthy (strip address) = true ->
          geocode_address strip (nominatim e) (geocode_cache w) address
            = (Some (la, ln), c') ->
          p !! "lat"%string = Some (VFloat la)
          /\ p !! "lng"%string = Some (VFloat ln)
          /\ geocode_cache w' = c')
    /\ (truthy (strip address) = false
        \/ fst (geocode_address strip (nominatim e) (geocode_cache w) address) = None ->
        p !! "lat"%string = Some (VFloat lat)
        /\ p !! "lng"%string = Some (VFloat lng)
        /\ geocode_cache w' = geocode_cache w).
Proof.
  intros Ht Hd Hload. rewrite (submit_report_valid _ _ _ _ _ _ _ _ _ _ Ht Hd).
  pose proof (geocode_address_failure_keeps_cache strip (nominatim e) (geocode_cache w)
                address) as Hsame.
  assert (Hblank : truthy address = false ->
                   geocode_address strip (nominatim e) (geocode_cache w) address
                   = (None, geocode_cache w)).
  { intros Hb. unfold geocode_address. rewrite Hb. reflexivity. }
  destruct (truthy address) eqn:Ha, (truthy (strip address)) eqn:Hs; cbn [andb];
    try (specialize (Hblank eq_refl));
    destruct (geocode_address strip (nominatim e) (geocode_cache w) address)
      as [[[la0 ln0] | ] c0] eqn:Hgeo;
    try discriminate;
    unfold new_issue_payload;
    destruct (match image_file with Some f => _ | None => (VNone, uploads w) end)
      as [image_path files'];
    unfold add_issue; rewrite Hload; cbn [mbind result_bind append save_data];
    (eexists _, _; split; [reflexivity | ]; split;
     [ intros la ln c' Hst Hg; try discriminate;
       injection Hg as <- <- <-; repeat split; reflexivity
     | intros [Hf | Hn]; try discriminate;
       try (specialize (Hsame eq_refl); simpl in Hsame; subst c0);
       try (injection Hblank as <-);
       repeat split; reflexivity ]).
Qed.

(** X23: an attached photo is written to the upload directory under the
    new record's id followed by the file's suffix, or ".jpg" when it has
    none, and the record's [image_path] is that path; the other uploads
    are kept.  Without a photo nothing is written and [image_path] is
    [None]. *)
Theorem submit_stores_photo_under_id (e : env)
    (user_id title description category : string) (lat lng : spec_float)
    (address : string) (image_file : option upload) (w : world)
    (data : list value) :
  strip title <> ""%string ->
  strip description <> ""%string ->
  load_data (db w) = Ok (VList data) ->
  exists (p : gmap string value) (w' : world),
    submit_report strip e user_id title description category lat lng address
      image_file w
    = (IssueSubmitted (VDict p), w')
    /\ match image_file with
       | Some f =>
           let path :=
             (upload_dir e +:+ "/" +:+ uuid4 e
              +:+ (if truthy (suffix f) then suffix f else ".jpg"))%string in
           p !! "image_path"%string = Some (VStr path)
           /\ uploads w' !! path = Some (buffer f)
           /\ (forall k : string, k <> path -> uploads w' !! k = uploads w !! k)
       | None =>
           p !! "image_path"%string = Some VNone
           /\ uploads w' = uploads w
       end.
Proof.
  intros Ht Hd Hload. rewrite (submit_report_valid _ _ _ _ _ _ _ _ _ _ Ht Hd).
  destruct (if _ && _ then geocode_address strip _ _ _ else (None, _))
    as [geo cache'].
  destruct (match geo with Some g => g | None => (lat, lng) end)
    as [chosen_lat chosen_lng].
  unfold new_issue_payload, add_issue. rewrite Hload.
  destruct image_file as [f | ]; cbn [mbind result_bind append save_data];
    eexists _, _; (split; [reflexivity | ]).
  - cbv zeta. split; [reflexivity | split].
    + apply lookup_insert_eq.
    + intros k Hk. apply lookup_insert_ne. congruence.
  - split; reflexivity.
Qed.

(** X24: the photo is written before the record is stored.  When the
    stored file cannot be loaded, or holds JSON that is not a list, the
    submission ends in that error, the stored file is untouched and no
    record is added, but the photo is in the upload directory all the
    same. *)
Theorem failed_submit_leaves_the_photo (e : env)
    (user_id title description category : string) (lat lng : spec_float)
    (address : string) (f : upload) (w : world) (x : exn) :
  strip title <> ""%string ->
  strip description <> ""%string ->
  load_data (db w) = Raise x
  \/ (x = AttributeError
      /\ exists v : value, load_data (db w) = Ok v /\ forall l, v <> VList l) ->
  exists w' : world,
    submit_report strip e user_id title description category lat lng address
      (Some f) w
    = (Uncaught x, w')
    /\ db w' = db w
    /\ uploads w'
       !! (upload_dir e +:+ "/" +:+ uuid4 e
           +:+ (if truthy (suffix f) then suffix f else ".jpg"))%string
       = Some (buffer f).
Proof.
  intros Ht Hd Hfail. rewrite (submit_report_valid _ _ _ _ _ _ _ _ _ _ Ht Hd).
  destruct (if _ && _ then geocode_address strip _ _ _ else (None, _))
    as [geo cache'].
  destruct (match geo with Some g => g | None => (lat, lng) end)
    as [chosen_lat chosen_lng].
  unfold new_issue_payload, add_issue.
  destruct Hfail as [Hload | (-> & v & Hload & Hnot)]; rewrite Hload;
    cbn [mbind result_bind].
  - eexists. split; [reflexivity | ]. split; [reflexivity | apply lookup_insert_eq].
  - destruct v; try (exfalso; eapply Hnot; reflexivity);
      (eexists; split; [reflexivity | ]; split; [reflexivity | apply lookup_insert_eq]).
Qed.

End FormProperties.

(** ** The further properties on sample data *)

Lemma geocode_address_memoized_witness :
  geocode_address ascii_strip (fun _ => None)
    (<["Main St"%string := main_st]> ∅) " Main St "
  = (Some main_st, <["Main St"%string := main_st]> ∅).
Proof.
  apply (geocode_address_memoized ascii_strip main_st_only (fun _ => None) ∅).
  reflexivity.
Defined.

Lemma add_in_turn_appends_in_order_witness :
  exists db' : db_file,
    add_in_turn
      [sample_record "A" "open" "user-7" 0 "2024-01-01T00:00:00Z";
       sample_record "B" "open" "user-42" 0 "2024-01-02T00:00:00Z"]
      (LoadFails JSONDecodeError)
    = Ok db'
    /\ load_data db'
       = Ok (VList ([] ++
               [sample_record "A" "open" "user-7" 0 "2024-01-01T00:00:00Z";
                sample_record "B" "open" "user-42" 0 "2024-01-02T00:00:00Z"])).
Proof.
  apply add_in_turn_appends_in_order. reflexivity.
Defined.

Lemma update_issue_overlays_patch_witness :
  update_issue (VStr "X")
    (<["lat"%string := VFloat (fst main_st)]> (<["lng"%string := VFloat (snd main_st)]> ∅))
    (Json (VList [VDict unplaced_fields]))
  = Ok (Json (VList
      [VDict (<["lat"%string := VFloat (fst main_st)]>
                (<["lng"%string := VFloat (snd main_st)]> ∅) ∪ unplaced_fields)])).
Proof.
  refine (proj1 (update_issue_overlays_patch _ [VDict unplaced_fields] 0
                   unplaced_fields "X" _ _ _)); reflexivity.
Defined.

Lemma add_update_needs_a_list_witness :
  add_update 5 (VStr "X") "note" None
    (Json (VList [VDict (bare_fields (VInt 0) VNone)]))
  = Raise AttributeError.
Proof.
  apply (add_update_needs_a_list 5 "note" None _ 0 (bare_fields (VInt 0) VNone) "X" VNone);
    try reflexivity.
  intros l. discriminate.
Defined.

Lemma mutation_keeps_ids_witness :
  exists data' : list value,
    load_data (Json (VList [sample_record "X" "open" "user-7" 1 "2024-01-01T00:00:00Z"]))
    = Ok (VList data')
    /\ length data' = length [sample_record "X" "open" "user-7" 0 "2024-01-01T00:00:00Z"]
    /\ Forall2 (fun x y => getitem y "id" = getitem x "id")
         [sample_record "X" "open" "user-7" 0 "2024-01-01T00:00:00Z"] data'.
Proof.
  apply (mutation_keeps_ids ascii_int
           (Json (VList [sample_record "X" "open" "user-7" 0 "2024-01-01T00:00:00Z"]))
           _ _ (VStr "X") 5 "note" None).
  - reflexivity.
  - left. reflexivity.
Defined.

(** Votes stored as 2.5 become 3. *)
Lemma upvote_stores_an_integer_witness :
  upvote_issue ascii_int (VStr "X")
    (Json (VList [VDict (bare_fields (VFloat two_and_a_half) (VList []))]))
  = Ok (Json (VList
      [VDict (<["votes"%string := VInt 3]> (bare_fields (VFloat two_and_a_half) (VList [])))])).
Proof.
  refine (proj1 (upvote_stores_an_integer ascii_int _ 0
                   (bare_fields (VFloat two_and_a_half) (VList [])) "X" 2 _ _ _ _));
    reflexivity.
Defined.

(** Votes stored as [null]. *)
Lemma upvote_rejects_bad_votes_witness :
  upvote_issue ascii_int (VStr "X")
    (Json (VList [VDict (bare_fields VNone (VList []))]))
  = Raise TypeError.
Proof.
  apply (upvote_rejects_bad_votes ascii_int _ 0 (bare_fields VNone (VList [])) "X");
    reflexivity.
Defined.

(** An object without id stored before the record "X". *)
Lemma unreadable_id_stops_every_mutation_witness :
  let data := [VDict nameless_fields;
               sample_record "X" "open" "user-7" 0 "2024-01-01T00:00:00Z"] in
  upvote_issue ascii_int (VStr "X") (Json (VList data)) = Raise KeyError
  /\ add_update 5 (VStr "X") "note" None (Json (VList data)) = Raise KeyError
  /\ update_issue (VStr "X") ∅ (Json (VList data)) = Raise KeyError.
Proof.
  intros data.
  apply (unreadable_id_stops_every_mutation ascii_int data 0 (VDict nameless_fields));
    reflexivity.
Defined.

Lemma upvote_and_update_commute_witness :
  exists db' : db_file,
    (db1 ← upvote_issue ascii_int (VStr "X")
             (Json (VList [sample_record "X" "open" "user-7" 0 "2024-01-01T00:00:00Z"]));
     add_update 5 (VStr "X") "Crew dispatched" (Some "in_progress"%string) db1) = Ok db'
    /\ (db1 ← add_update 5 (VStr "X") "Crew dispatched" (Some "in_progress"%string)
                (Json (VList [sample_record "X" "open" "user-7" 0 "2024-01-01T00:00:00Z"]));
        upvote_issue ascii_int (VStr "X") db1) = Ok db'.
Proof.
  apply (upvote_and_update_commute ascii_int 5 "Crew dispatched"
           (Some "in_progress"%string) _ 0
           (sample_fields "X" "open" "user-7" 0 "2024-01-01T00:00:00Z") "X" 0
           [sample_entry]); reflexivity.
Defined.

Lemma owner_delete_undoes_create_witness :
  exists (p : value) (w' : world),
    submit_report ascii_strip sample_env "user-7" "Pothole on Main St" "Large pothole"
      "roads" (fst main_st) (snd main_st) "" None
      (world_of [sample_record "W" "open" "user-42" 3 "2023-12-31T00:00:00Z"])
    = (IssueSubmitted p, w')
    /\ delete_button "user-7" true p (db w')
       = Ok (Json (VList [sample_record "W" "open" "user-42" 3 "2023-12-31T00:00:00Z"])).
Proof.
  apply (owner_delete_undoes_create ascii_strip).
  - vm_compute. discriminate.
  - vm_compute. discriminate.
  - reflexivity.
  - reflexivity.
Defined.

Lemma filtered_is_a_sublist_witness :
  sublist
    [sample_record "B" "resolved" "user-7" 5 "2024-01-02T00:00:00Z"]
    [sample_record "A" "in_progress" "user-7" 0 "2024-01-01T00:00:00Z";
     sample_record "B" "resolved" "user-7" 5 "2024-01-02T00:00:00Z"].
Proof.
  apply (filtered_is_a_sublist scalar_str ascii_lower "all" "resolved" "pothole" false
           "user-7").
  vm_compute. reflexivity.
Defined.

Lemma filtered_twice_witness :
  filtered scalar_str ascii_lower "all" "resolved" "pothole" false "user-7"
    (VList [sample_record "B" "resolved" "user-7" 5 "2024-01-02T00:00:00Z"])
  = Ok [sample_record "B" "resolved" "user-7" 5 "2024-01-02T00:00:00Z"].
Proof.
  apply (filtered_twice scalar_str ascii_lower "all" "resolved" "pothole" false "user-7"
           [sample_record "A" "in_progress" "user-7" 0 "2024-01-01T00:00:00Z";
            sample_record "B" "resolved" "user-7" 5 "2024-01-02T00:00:00Z"]).
  vm_compute. reflexivity.
Defined.

Lemma filter_stops_on_a_non_object_witness :
  filtered scalar_str ascii_lower "roads" "all" "" false "user-7"
    (VList [sample_record "A" "open" "user-7" 0 "2024-01-01T00:00:00Z"; VInt 3])
  = Raise AttributeError.
Proof.
  apply (filter_stops_on_a_non_object scalar_str ascii_lower "roads" "all" "" false
           "user-7" _ (VInt 3)).
  - discriminate.
  - apply list_elem_of_further, list_elem_of_here.
  - intros d. discriminate.
Defined.

(** Two records with the same key keep their places. *)
Lemma display_order_is_stable_witness :
  List.filter (fun x => bool_decide (sort_key x = Some (false, -1, "2024-01-01T00:00:00Z"%string)))
    [sample_record "A" "open" "user-7" 1 "2024-01-01T00:00:00Z";
     sample_record "B" "open" "user-42" 1 "2024-01-01T00:00:00Z";
     sample_record "C" "resolved" "user-7" 9 "2024-01-03T00:00:00Z"]
  = List.filter (fun x => bool_decide (sort_key x = Some (false, -1, "2024-01-01T00:00:00Z"%string)))
      [sample_record "C" "resolved" "user-7" 9 "2024-01-03T00:00:00Z";
       sample_record "A" "open" "user-7" 1 "2024-01-01T00:00:00Z";
       sample_record "B" "open" "user-42" 1 "2024-01-01T00:00:00Z"].
Proof.
  apply (display_order_is_stable
           [sample_record "C" "resolved" "user-7" 9 "2024-01-03T00:00:00Z";
            sample_record "A" "open" "user-7" 1 "2024-01-01T00:00:00Z";
            sample_record "B" "open" "user-42" 1 "2024-01-01T00:00:00Z"]).
  vm_compute. reflexivity.
Defined.

Lemma display_order_twice_witness :
  display_order
    [sample_record "B" "resolved" "user-7" 5 "2024-01-02T00:00:00Z";
     sample_record "A" "in_progress" "user-7" 0 "2024-01-01T00:00:00Z"]
  = Some
    [sample_record "B" "resolved" "user-7" 5 "2024-01-02T00:00:00Z";
     sample_record "A" "in_progress" "user-7" 0 "2024-01-01T00:00:00Z"].
Proof.
  apply (display_order_twice
           [sample_record "A" "in_progress" "user-7" 0 "2024-01-01T00:00:00Z";
            sample_record "B" "resolved" "user-7" 5 "2024-01-02T00:00:00Z"]).
  vm_compute. reflexivity.
Defined.

(** A record with an empty address is not sent to the geocoder. *)
Lemma backfill_leaves_alone_witness :
  backfill_row ascii_strip main_st_only
    (sample_record "X" "open" "user-7" 0 "2024-01-01T00:00:00Z") NoFile ∅
  = Ok (sample_record "X" "open" "user-7" 0 "2024-01-01T00:00:00Z", NoFile, ∅).
Proof.
  apply (backfill_leaves_alone ascii_strip). right. left. reflexivity.
Defined.

(** Longitude 0 and no latitude: both are filled in from the address. *)
Lemma backfill_sets_both_coordinates_witness :
  backfill_row ascii_strip main_st_only (VDict unplaced_fields)
    (Json (VList [VDict unplaced_fields])) ∅
  = Ok (VDict (<["lng"%string := VFloat (snd main_st)]>
                 (<["lat"%string := VFloat (fst main_st)]> unplaced_fields)),
        Json (VList
          [VDict (<["lat"%string := VFloat (fst main_st)]>
                    (<["lng"%string := VFloat (snd main_st)]> ∅) ∪ unplaced_fields)]),
        <["Main St"%string := main_st]> ∅).
Proof.
  refine (proj1 (backfill_sets_both_coordinates ascii_strip main_st_only
                   unplaced_fields unplaced_fields [VDict unplaced_fields] 0 "X" "Main St"
                   (fst main_st) (snd main_st) ∅ (<["Main St"%string := main_st]> ∅)
                   _ _ _ _ _ _ _)); try reflexivity.
  left. reflexivity.
Defined.

(** The pin is put at (0, 0); "Main St" is resolved, "Nowhere Rd" is
    not. *)
Lemma submit_prefers_geocoded_coordinates_witness :
  (exists (p : gmap string value) (w' : world),
     submit_report ascii_strip geocoding_env "user-7" "Pothole on Main St" "Large pothole"
       "roads" (S754_zero false) (S754_zero false) "Main St" None empty_world
     = (IssueSubmitted (VDict p), w')
     /\ p !! "lat"%string = Some (VFloat (fst main_st))
     /\ p !! "lng"%string = Some (VFloat (snd main_st))
     /\ geocode_cache w' = <["Main St"%string := main_st]> ∅)
  /\ (exists (p : gmap string value) (w' : world),
        submit_report ascii_strip geocoding_env "user-7" "Pothole on Main St" "Large pothole"
          "roads" (S754_zero false) (S754_zero false) "Nowhere Rd" None empty_world
        = (IssueSubmitted (VDict p), w')
        /\ p !! "lat"%string = Some (VFloat (S754_zero false))
        /\ p !! "lng"%string = Some (VFloat (S754_zero false))
        /\ geocode_cache w' = ∅).
Proof.
  split.
  - destruct (submit_prefers_geocoded_coordinates ascii_strip geocoding_env "user-7"
                "Pothole on Main St" "Large pothole" "roads" (S754_zero false)
                (S754_zero false) "Main St" None empty_world [])
      as (p & w' & Hrun & Hfound & _).
    + vm_compute. discriminate.
    + vm_compute. discriminate.
    + reflexivity.
    + exists p, w'. split; [exact Hrun | ].
      apply (Hfound (fst main_st) (snd main_st)); reflexivity.
  - destruct (submit_prefers_geocoded_coordinates ascii_strip geocoding_env "user-7"
                "Pothole on Main St" "Large pothole" "roads" (S754_zero false)
                (S754_zero false) "Nowhere Rd" None empty_world [])
      as (p & w' & Hrun & _ & Hpicked).
    + vm_compute. discriminate.
    + vm_compute. discriminate.
    + reflexivity.
    + exists p, w'. split; [exact Hrun | ].
      apply Hpicked. right. reflexivity.
Defined.

Lemma submit_stores_photo_under_id_witness :
  exists (p : gmap string value) (w' : world),
    submit_report ascii_strip sample_env "user-7" "Pothole on Main St" "Large pothole"
      "roads" (fst main_st) (snd main_st) "" (Some sample_photo) empty_world
    = (IssueSubmitted (VDict p), w')
    /\ p !! "image_path"%string
       = Some (VStr "uploads/9f1c2d3e-4b5a-4c6d-8e7f-0a1b2c3d4e5f.jpg").
Proof.
  destruct (submit_stores_photo_under_id ascii_strip sample_env "user-7"
              "Pothole on Main St" "Large pothole" "roads" (fst main_st) (snd main_st)
              "" (Some sample_photo) empty_world [])
    as (p & w' & Hrun & Hpath & _).
  - vm_compute. discriminate.
  - vm_compute. discriminate.
  - reflexivity.
  - exists p, w'. split; [exact Hrun | exact Hpath].
Defined.

Lemma failed_submit_leaves_the_photo_witness :
  exists w' : world,
    submit_report ascii_strip sample_env "user-7" "Pothole on Main St" "Large pothole"
      "roads" (fst main_st) (snd main_st) "" (Some sample_photo)
      {| db := LoadFails UnicodeDecodeError; uploads := ∅; geocode_cache := ∅ |}
    = (Uncaught UnicodeDecodeError, w')
    /\ db w' = LoadFails UnicodeDecodeError
    /\ uploads w' !! "uploads/9f1c2d3e-4b5a-4c6d-8e7f-0a1b2c3d4e5f.jpg"%string
       = Some (buffer sample_photo).
Proof.
  apply (failed_submit_leaves_the_photo ascii_strip sample_env "user-7"
           "Pothole on Main St" "Large pothole" "roads" (fst main_st) (snd main_st) ""
           sample_photo
           {| db := LoadFails UnicodeDecodeError; uploads := ∅; geocode_cache := ∅ |}).
  - vm_compute. discriminate.
  - vm_compute. discriminate.
  - left. reflexivity.
Defined.
